(** * Gocal, util.go: event import, event expansion, moon phases, locale names

    A shallow embedding of the functions of [util.go] that feed the calendar
    renderer, together with the properties of them that the specification
    states.

    Conventions.
    - Go [int], [int64] and [time.Month] are [Z]; no value handled here comes
      near the 64-bit bounds, except where [strconv.ParseInt] clamps to 32
      bits, which is written out.
    - Go strings are byte strings: [string] with one [ascii] per byte, so
      [len] is [String.length] and slicing is by bytes.
    - [log.Fatal] and run-time panics are outcomes of their own.
    - The one goroutine, in [readICSfile], is not waited for by its caller;
      how many events it has handled when the caller returns is an argument
      of the embedded function.
    - Functions of third-party packages (meeus, monday, go-charset,
      ics-golang, encoding/xml) and the file system are parameters. *)

From Stdlib Require Import ZArith QArith Qround Lqa Ascii.
From stdpp Require Import gmap strings list fin_maps.

Close Scope Q_scope.
Local Open Scope Z_scope.

(** ** Outcomes of a call *)

Inductive outcome (A : Type) : Type :=
| Ret (a : A)            (* the function returned [a] *)
| Fatal (msg : string)   (* log.Fatal / log.Fatalf: the process exits *)
| Panic (msg : string).  (* run-time panic *)
Arguments Ret {A} a.
Arguments Fatal {A} msg.
Arguments Panic {A} msg.

#[global] Instance outcome_bind : MBind outcome := fun A B f m =>
  match m with
  | Ret a => f a
  | Fatal msg => Fatal msg
  | Panic msg => Panic msg
  end.
#[global] Instance outcome_ret : MRet outcome := fun A a => Ret a.

(** ** The Go standard library functions the file calls *)

Module GoStd.

(** *** Bytes and decimal digits *)

Definition is_digit (c : ascii) : bool :=
  (48 <=? Z.of_nat (nat_of_ascii c)) && (Z.of_nat (nat_of_ascii c) <=? 57).

Definition digit_val (c : ascii) : Z := Z.of_nat (nat_of_ascii c) - 48.

Definition digit_char (d : Z) : ascii := ascii_of_nat (Z.to_nat (48 + d)).

(** Decimal digits of a non-negative integer, most significant first. *)
Fixpoint digits_go (fuel : nat) (n : Z) : string :=
  match fuel with
  | O => ""
  | S f => (if n <? 10 then "" else digits_go f (n / 10))
             +:+ String (digit_char (n mod 10)) ""
  end.

Definition digits (n : Z) : string := digits_go (S (Z.to_nat (Z.log2 n))) n.

Fixpoint zeros (k : nat) : string :=
  match k with O => "" | S k' => String "0" (zeros k') end.

Definition pad0 (w : nat) (s : string) : string :=
  zeros (w - String.length s) +:+ s.

(** The decimal numeral of a non-negative integer with [w] digits at least:
    [15], [05], [015]. *)
Definition numeral (w : nat) (n : Z) : string := pad0 w (digits n).

(** [fmt.Sprintf] with the verb [%0wd]: the sign counts in the width. *)
Definition Sprintf_0d (w : nat) (x : Z) : string :=
  if x <? 0 then "-" +:+ numeral (w - 1) (- x) else numeral w x.

(** [appendInt] of package time, which [Time.Format] uses for the layouts
    "2006" (width 4), "01" and "02" (width 2): the sign does not count. *)
Definition appendInt (x : Z) (w : nat) : string :=
  if x <? 0 then "-" +:+ numeral w (- x) else numeral w x.

(** Strings of decimal digits only. *)
Fixpoint all_digits (s : string) : bool :=
  match s with
  | EmptyString => true
  | String c s' => is_digit c && all_digits s'
  end.

(** The verb [%d]. *)
Definition itoa (x : Z) : string :=
  if x <? 0 then "-" +:+ digits (- x) else digits x.

(** *** strconv.ParseInt(s, 10, 32) *)

Inductive NumError := ErrSyntax | ErrRange.

Definition maxVal32 : Z := 2 ^ 32 - 1.

(** The digit loop of [ParseUint]: the first byte that is no decimal digit
    gives a syntax error with value 0, the first step beyond 32 bits a range
    error with the largest value. *)
Fixpoint ParseUint_go (n : Z) (s : string) : Z * option NumError :=
  match s with
  | EmptyString => (n, None)
  | String c s' =>
      if is_digit c then
        let n1 := n * 10 + digit_val c in
        if maxVal32 <? n1 then (maxVal32, Some ErrRange) else ParseUint_go n1 s'
      else (0, Some ErrSyntax)
  end.

Definition ParseUint (s : string) : Z * option NumError :=
  match s with
  | EmptyString => (0, Some ErrSyntax)
  | _ => ParseUint_go 0 s
  end.

Definition ParseInt_unsigned (neg : bool) (s : string) : Z * option NumError :=
  let cutoff := 2 ^ 31 in
  match ParseUint s with
  | (_, Some ErrSyntax) => (0, Some ErrSyntax)
  | (un, _) =>
      if negb neg && (cutoff <=? un) then (cutoff - 1, Some ErrRange)
      else if neg && (cutoff <? un) then (- cutoff, Some ErrRange)
      else (if neg then - un else un, None)
  end.

Definition ParseInt (s : string) : Z * option NumError :=
  match s with
  | EmptyString => (0, Some ErrSyntax)
  | String c s' =>
      if Ascii.eqb c "+" then ParseInt_unsigned false s'
      else if Ascii.eqb c "-" then ParseInt_unsigned true s'
      else ParseInt_unsigned false s
  end.

(** *** strings.Index and strings.Split with a one-byte separator *)

Fixpoint Index (s : string) (sep : ascii) : Z :=
  match s with
  | EmptyString => -1
  | String c s' =>
      if Ascii.eqb c sep then 0
      else let r := Index s' sep in if r =? -1 then -1 else r + 1
  end.

Fixpoint Split (s : string) (sep : ascii) : list string :=
  match s with
  | EmptyString => [""]
  | String c s' =>
      if Ascii.eqb c sep then "" :: Split s' sep
      else match Split s' sep with
           | [] => [String c ""]
           | h :: t => String c h :: t
           end
  end.

(** *** Slicing a string, [s[0:hi]] *)

Fixpoint take_bytes (k : nat) (s : string) : string :=
  match k, s with
  | S k', String c s' => String c (take_bytes k' s')
  | _, _ => ""
  end.

Definition slice_to (s : string) (hi : Z) : outcome string :=
  if (hi <? 0) || (Z.of_nat (String.length s) <? hi)
  then Panic "slice bounds out of range"
  else Ret (take_bytes (Z.to_nat hi) s).

End GoStd.

(** ** Data model *)

(** Modelled from the spec: the struct [Gocaldate] is declared in another
    file of the package; util.go reads its fields [Date], [Text] and
    [Image], all strings. *)
Record Gocaldate := { Date : string; Text : string; Image : string }.

(** [TelegramStore], the container the XML event list is read into (the
    [XMLName] field carries the root tag only). *)
Record TelegramStore := { store_Gocaldate : list Gocaldate }.

(** Modelled from the spec: the struct [gDate] (the DayEvent record) is
    declared in another file of the package; util.go builds it with
    positional literals of five fields: month, day, text, weekday, image. *)
Record gDate := mk_gDate
  { month : Z; day : Z; text : string; weekday : string; image : string }.

(** The calendar date of a [time.Time]. *)
Record Time := time_Date { Year : Z; Month : Z; Day : Z }.

(** [Time.Format] for the layouts util.go passes; a layout without a
    reference element is copied as it is. *)
Definition Format (t : Time) (layout : string) : string :=
  match layout with
  | "2006" => GoStd.appendInt (Year t) 4
  | "01" => GoStd.appendInt (Month t) 2
  | "02" => GoStd.appendInt (Day t) 2
  | _ => layout
  end.

(** An event of the calendar-exchange parser: what [GetSummary] and
    [GetStart] return. *)
Record Event := { GetSummary : string; GetStart : Time }.

(** What opening and reading a file gives. *)
Inductive file_state :=
| OpenFails
| ReadFails
| Contents (data : string).

(** The packages and the file system util.go relies on. *)
Class Env := {
  (* fmt.Fprintf(w, format) without operands: the bytes written *)
  fmt_format : string -> string;
  (* charset.NewWriter(name, buf): an error, or the translation applied to
     what is written before Close *)
  charset_NewWriter : string -> string + (string -> string);
  (* monday.Format(t, layout, monday.Locale(locale)) *)
  monday_Format : Time -> string -> string -> string;
  (* the events the ics parser sends on its output channel for a file *)
  ics_events : string -> list Event;
  (* os.Open followed by ioutil.ReadAll *)
  os_file : string -> file_state;
  (* xml.Unmarshal into a fresh TelegramStore: an error or the store *)
  xml_Unmarshal : string -> string + TelegramStore
}.

(** float64 and the operations util.go applies to it. *)
Class Float64 (float64 : Type) := {
  float64_of_int : Z -> float64;                 (* float64(n) *)
  float64_add : float64 -> float64 -> float64;
  float64_div : float64 -> float64 -> float64;
  int_of_float64 : float64 -> Z                  (* int(x) *)
}.

(** Package meeus: julian and moonphase. *)
Class Meeus (float64 : Type) := {
  LeapYearGregorian : Z -> bool;
  DayOfYearGregorian : Z -> Z -> Z -> Z;
  JDToCalendar : float64 -> Z * Z * float64;
  moonphase_Full : float64 -> float64;
  moonphase_New : float64 -> float64;
  moonphase_First : float64 -> float64;
  moonphase_Last : float64 -> float64
}.

(** ** Loops and indexing *)

(** [for _, x := range l { acc = body(acc, x) }] where the body may end the
    run. *)
Fixpoint for_range {A B : Type} (body : B -> A -> outcome B) (acc : B)
    (l : list A) : outcome B :=
  match l with
  | [] => Ret acc
  | x :: l' => acc' ← body acc x; for_range body acc' l'
  end.

(** [l[i]] on a slice: out of range panics. *)
Definition index {A : Type} (l : list A) (i : nat) : outcome A :=
  match l !! i with
  | Some x => Ret x
  | None => Panic "index out of range"
  end.

(** ** The two shapes of a day event *)

Definition date_addressed (g : gDate) : Prop :=
  1 <= month g <= 12 /\ 1 <= day g <= 31 /\ weekday g = "".

Definition weekday_addressed (g : gDate) : Prop :=
  month g = 0 /\ day g = 0 /\ weekday g <> "".

Definition well_addressed (g : gDate) : Prop :=
  date_addressed g \/ weekday_addressed g.

(** A start date as a [time.Time] holds it, the year within 32 bits. *)
Definition valid_date (t : Time) : Prop :=
  - 2 ^ 31 <= Year t <= 2 ^ 31 - 1 /\ 1 <= Month t <= 12 /\ 1 <= Day t <= 31.

(** The [Date] strings the event list is meant to hold: [M/D], [*/D] and a
    weekday name, the numbers in decimal with or without leading zeros. *)
Inductive wf_Date : string -> Prop :=
| wf_month_day (M D : Z) (wM wD : nat) :
    1 <= M <= 12 -> 1 <= D <= 31 ->
    wf_Date (GoStd.numeral wM M +:+ String "/" (GoStd.numeral wD D))
| wf_every_month (D : Z) (wD : nat) :
    1 <= D <= 31 -> wf_Date ("*/" +:+ GoStd.numeral wD D)
| wf_weekday (s : string) :
    s <> "" -> GoStd.Index s "/" = -1 -> wf_Date s.

(** ** Events and locale names *)

Section Events.
Context `{Env}.

Definition convertCP (input : string) : outcome string :=
  match charset_NewWriter "windows-1252" with
  | inl err => Fatal err
  | inr w => Ret (w (fmt_format input))
  end.

(** The conversion is available and maps [s] to [conv s]. *)
Definition converts (conv : string -> string) : Prop :=
  forall s, convertCP s = Ret (conv s).

(** The body of the consumer loop of [readICSfile]. *)
Definition readICSfile_event (targetyear : Z) (eL : list gDate)
    (event : Event) : outcome (list gDate) :=
  eventText ← convertCP (GetSummary event);
  let year := Format (GetStart event) "2006" in
  let mon := Format (GetStart event) "01" in
  let day := Format (GetStart event) "02" in
  let yr := (GoStd.ParseInt year).1 in
  let mo := (GoStd.ParseInt mon).1 in
  let d := (GoStd.ParseInt day).1 in
  if decide (targetyear = yr) then
    let gcd := mk_gDate mo d eventText "" "" in
    Ret (eL ++ [gcd])
  else Ret eL.

(** [readICSfile]. The parser is given the file name and sends the events
    it parses on its output channel. The loop that takes them runs in a
    goroutine of its own ([go func() { ... }()]) and appends to the named
    result [eL]; the caller goes on to [parser.Wait()], which waits for the
    parser, and then returns [eL]. Nothing makes the caller wait for the
    consumer: the value returned is [eL] as the consumer has left it by
    then. The consumer takes the events in the order they are sent and
    handles one at a time, so what it has done by then is the loop over a
    prefix of the events. The length of that prefix is decided by the
    scheduler; it is the argument [drained]: 0 when the caller returns
    before the consumer has handled any event, the number of events or more
    when the consumer has emptied the channel. A failed conversion within
    these iterations ends the run ([log.Fatal]). The settings [ics.FilePath]
    and [ics.DeleteTempFiles] concern the parser's temporary files only. *)
Definition readICSfile (filename : string) (targetyear : Z) (drained : nat)
    : outcome (list gDate) :=
  for_range (readICSfile_event targetyear) []
    (take drained (ics_events filename)).

(** The body of the loop over the configured entries. *)
Definition readConfigurationfile_entry (eL : list gDate) (m : Gocaldate)
    : outcome (list gDate) :=
  if negb (GoStd.Index (Date m) "/" =? -1) then
    let textArray := GoStd.Split (Date m) "/" in
    eventText ← convertCP (Text m);
    t0 ← index textArray 0;
    if decide (t0 = "*") then
      t1 ← index textArray 1;
      let d := (GoStd.ParseInt t1).1 in
      Ret (foldl (fun eL j => eL ++ [mk_gDate j d eventText "" (Image m)])
                 eL (seqZ 1 12))
    else
      let mo := (GoStd.ParseInt t0).1 in
      t1 ← index textArray 1;
      let d := (GoStd.ParseInt t1).1 in
      Ret (eL ++ [mk_gDate mo d eventText "" (Image m)])
  else
    eventText ← convertCP (Text m);
    Ret (eL ++ [mk_gDate 0 0 eventText (Date m) (Image m)]).

Definition readConfigurationfile (filename : string) : outcome (list gDate) :=
  match os_file filename with
  | OpenFails => Ret []
  | ReadFails => Ret []
  | Contents data =>
      match xml_Unmarshal data with
      | inl err2 =>
          Fatal ("# ERROR: when trying to unmarshal the XML configuration file: "
                   +:+ err2)
      | inr v => for_range readConfigurationfile_entry [] (store_Gocaldate v)
      end
  end.

(** The body of the loop of [getLocalizedWeekdayNames]; [wdnames] is the
    array of 8 strings. *)
Definition getLocalizedWeekdayNames_day (locale : string) (cutoff : Z)
    (wdnames : list string) (i : Z) : outcome (list string) :=
  let t := time_Date 2013 1 (5 + i) in
  name ← convertCP (monday_Format t "Monday" locale);
  let wdnames := <[Z.to_nat i := name]> wdnames in
  if 0 <? cutoff then
    cur ← index wdnames (Z.to_nat i);
    cut ← GoStd.slice_to cur cutoff;
    Ret (<[Z.to_nat i := cut]> wdnames)
  else Ret wdnames.

Definition getLocalizedWeekdayNames (locale : string) (cutoff : Z)
    : outcome (list string) :=
  for_range (getLocalizedWeekdayNames_day locale cutoff)
            (replicate 8 "") (seqZ 0 7).

(** The name of the weekday [i] days after 2013-01-05, converted, and its
    cut to [cutoff] bytes. *)
Definition weekday_name (locale : string) (conv : string -> string) (i : Z)
    : string :=
  conv (monday_Format (time_Date 2013 1 (5 + i)) "Monday" locale).

Definition cut_name (cutoff : Z) (s : string) : string :=
  if 0 <? cutoff then GoStd.take_bytes (Z.to_nat cutoff) s else s.

End Events.

(** ** Moon phases *)

(** A map after the writes [l], made one after the other. *)
Definition apply_writes {K V : Type} `{Countable K} (m : gmap K V)
    (l : list (K * V)) : gmap K V :=
  foldl (fun m p => <[p.1 := p.2]> m) m l.

Section Moon.
Context {float64 : Type} `{!Float64 float64, !Meeus float64}.

Definition daysInYear (yr : Z) : Z :=
  if LeapYearGregorian yr then 366 else 365.

(** The map literal [moon_funcs], as its list of entries. *)
Definition moon_funcs : list (string * (float64 -> float64)) :=
  [ ("Full", moonphase_Full);
    ("New", moonphase_New);
    ("First", moonphase_First);
    ("Last", moonphase_Last) ].

(** [float64(yr) + float64(n)/float64(daysInYear)] *)
Definition decimalYear (yr n : Z) : float64 :=
  float64_add (float64_of_int yr)
    (float64_div (float64_of_int n) (float64_of_int (daysInYear yr))).

(** [fmt.Sprintf("%04d-%02d-%02d", y, m, int(d))] on the calendar date of
    [jd]. *)
Definition moonString (jd : float64) : string :=
  let '(y, m, d) := JDToCalendar jd in
  GoStd.Sprintf_0d 4 y +:+ "-" +:+ GoStd.Sprintf_0d 2 m +:+ "-"
    +:+ GoStd.Sprintf_0d 2 (int_of_float64 d).

(** One pass of the inner loop of [computeMoonphasesJ]: the entry
    [(moonkey, moon_funcs[moonkey])] the range statement is at. *)
Definition computeMoonphasesJ_entry (dy : float64)
    (moonJ : gmap string string) (e : string * (float64 -> float64))
    : gmap string string :=
  let jd := e.2 dy in
  <[moonString jd := e.1]> moonJ.

(** [computeMoonphasesJ]. Go leaves the order of a range over a map open;
    [range_order i] is the order in which the entries of [moon_funcs] come
    at day index [i], a permutation of [moon_funcs]. *)
Definition computeMoonphasesJ
    (range_order : Z -> list (string * (float64 -> float64)))
    (moonJ : gmap string string) (yr : Z) : gmap string string :=
  foldl (fun moonJ i =>
           foldl (computeMoonphasesJ_entry (decimalYear yr (i - 1)))
                 moonJ (range_order i))
        moonJ (seqZ 0 (daysInYear yr)).

(** State of [computeMoonphases]: the map and the lines printed with
    [fmt.Printf], each without its final newline. *)
Definition moon_state : Type := gmap Z string * list string.

(** One of the four blocks of the loop body of [computeMoonphases]: the
    phase function, its label, and the announcement it prints if any. *)
Definition computeMoonphases_phase (phase : float64 -> float64)
    (label : string) (announce : option string) (mo yr i : Z) (dy : float64)
    (st : moon_state) : moon_state :=
  let '(y, m, d) := JDToCalendar (phase dy) in
  if (y =? yr) && (m =? mo) && (int_of_float64 d =? i) then
    (<[int_of_float64 d := label]> st.1,
     match announce with
     | Some a => st.2 ++ [a +:+ " moon on " +:+ GoStd.itoa (int_of_float64 d)
                            +:+ "." +:+ GoStd.itoa m +:+ "." +:+ GoStd.itoa y]
     | None => st.2
     end)
  else st.

Definition computeMoonphases_day (da mo yr : Z) (st : moon_state) (i : Z)
    : moon_state :=
  let dayOfYear := DayOfYearGregorian yr mo (da + i) in
  let dy := decimalYear yr (dayOfYear - 1) in
  let st := computeMoonphases_phase moonphase_New "New" (Some "New") mo yr i dy st in
  let st := computeMoonphases_phase moonphase_Full "Full" (Some "Full") mo yr i dy st in
  let st := computeMoonphases_phase moonphase_First "First" None mo yr i dy st in
  computeMoonphases_phase moonphase_Last "Last" None mo yr i dy st.

Definition computeMoonphases (moon : gmap Z string) (da mo yr : Z)
    : moon_state :=
  foldl (computeMoonphases_day da mo yr) (moon, []) (seqZ 0 32).

(** The writes of [computeMoonphasesJ] in the order they happen: key and
    label. *)
Definition computeMoonphasesJ_writes
    (range_order : Z -> list (string * (float64 -> float64))) (yr : Z)
    : list (string * string) :=
  i ← seqZ 0 (daysInYear yr);
  e ← range_order i;
  [(moonString (e.2 (decimalYear yr (i - 1))), e.1)].

(** The date keys the four phase functions give at day index [i]. *)
Definition phase_keys (yr i : Z) : list string :=
  (fun e : string * (float64 -> float64) =>
     moonString (e.2 (decimalYear yr (i - 1)))) <$> moon_funcs.

(** The test of one block of [computeMoonphases] at offset [i]. *)
Definition phase_falls_on (phase : float64 -> float64) (da mo yr i : Z)
    : bool :=
  let '(y, m, d) :=
    JDToCalendar
      (phase (decimalYear yr (DayOfYearGregorian yr mo (da + i) - 1))) in
  (y =? yr) && (m =? mo) && (int_of_float64 d =? i).

(** What key [i] holds after the four blocks of offset [i], [previous]
    being what it held before: the last of New, Full, First, Last whose test
    passed. *)
Definition last_phase_on (da mo yr i : Z) (previous : option string)
    : option string :=
  if phase_falls_on moonphase_Last da mo yr i then Some "Last"
  else if phase_falls_on moonphase_First da mo yr i then Some "First"
  else if phase_falls_on moonphase_Full da mo yr i then Some "Full"
  else if phase_falls_on moonphase_New da mo yr i then Some "New"
  else previous.


End Moon.

(** ** A reference almanac

    An instance of the two interfaces above on exact rationals: the calendar
    functions of package julian (Meeus, Astronomical Algorithms, ch. 7) and
    the mean lunation of ch. 49, formula (49.1), which the phase functions
    of package moonphase start from before they add their periodic terms.
    It serves to evaluate the moon-phase functions on concrete years. *)

Module Almanac.

Definition trunc (q : Q) : Z :=
  if Qle_bool 0 q then Qfloor q else Qceiling q.

Definition LeapYear (y : Z) : bool :=
  ((Z.rem y 4 =? 0) && negb (Z.rem y 100 =? 0)) || (Z.rem y 400 =? 0).

Definition DayOfYear (y m d : Z) : Z :=
  let k := if LeapYear y then 1 else 2 in
  275 * m ÷ 9 - k * ((m + 9) ÷ 12) + d - 30.

(** The date of a Julian day: integer part [z] and fraction [f] of
    [jd + 1/2]. *)
Definition calendar (z : Z) : Z * Z * Z :=
  let a :=
    if 2299151 <=? z then
      let alpha := (z * 100 - 186721625) / 3652425 in
      z + 1 + alpha - alpha / 4
    else z in
  let b := a + 1524 in
  let c := (b * 100 - 12210) / 36525 in
  let d := 36525 * c / 100 in
  let e := (b - d) * 10000 / 306001 in
  let dd := b - d - 306001 * e / 10000 in
  let mm := if (e =? 14) || (e =? 15) then e - 13 else e - 1 in
  let yy := if (mm =? 1) || (mm =? 2) then c - 4715 else c - 4716 in
  (yy, mm, dd).

Definition JDToCal (jd : Q) : Z * Z * Q :=
  let z := Qfloor (jd + (1 # 2))%Q in
  let f := (jd + (1 # 2) - inject_Z z)%Q in
  let '(yy, mm, dd) := calendar z in
  (yy, mm, Qred (inject_Z dd + f)%Q).

(** The lunation count nearest the decimal year, at quarter [q]. *)
Definition snap (y q : Q) : Q :=
  let k := ((y - 2000) * (123685 # 10000))%Q in
  (inject_Z (Qfloor (k - q + (1 # 2))%Q) + q)%Q.

(** Formula (49.1), in [T = k / 1236.85]. *)
Definition mean (k : Q) : Q :=
  let T := (k / (123685 # 100))%Q in
  Qred ((245155009766 # 100000) + (29530588861 # 1000000000) * k
        + T * T * ((15437 # 100000000)
                   + T * (- (15 # 100000000)
                          + T * (73 # 100000000000))))%Q.

Definition MeanNew (y : Q) : Q := mean (snap y 0).
Definition MeanFirst (y : Q) : Q := mean (snap y (1 # 4)).
Definition MeanFull (y : Q) : Q := mean (snap y (1 # 2)).
Definition MeanLast (y : Q) : Q := mean (snap y (3 # 4)).

#[local] Instance float64_Q : Float64 Q := {|
  float64_of_int := inject_Z;
  float64_add x y := Qred (x + y)%Q;
  float64_div x y := Qred (x / y)%Q;
  int_of_float64 := trunc
|}.

#[local] Instance meeus_Q : Meeus Q := {|
  LeapYearGregorian := LeapYear;
  DayOfYearGregorian := DayOfYear;
  JDToCalendar := JDToCal;
  moonphase_Full := MeanFull;
  moonphase_New := MeanNew;
  moonphase_First := MeanFirst;
  moonphase_Last := MeanLast
|}.

(** The year-wide map of a year, the entries ranged over in the order of the
    map literal. *)
Definition year_map (yr : Z) : gmap string string :=
  computeMoonphasesJ (fun _ => moon_funcs) ∅ yr.

End Almanac.

(** ** A library whose phases coincide

    An instance in which every Julian day is read as the same calendar date,
    so that the four phases of a day index share one key. *)

Module Coincide.

#[local] Instance float64_Z : Float64 Z := {|
  float64_of_int := id;
  float64_add := Z.add;
  float64_div := Z.div;
  int_of_float64 := id
|}.

#[local] Instance meeus_flat : Meeus Z := {|
  LeapYearGregorian := Almanac.LeapYear;
  DayOfYearGregorian := Almanac.DayOfYear;
  JDToCalendar := fun _ => (2024, 1, 11);
  moonphase_Full := id;
  moonphase_New := id;
  moonphase_First := id;
  moonphase_Last := id
|}.

End Coincide.

(** ** A sample environment *)

Module Sample.

Definition weekday_en (t : Time) : string :=
  match Day t with
  | 5 => "Saturday" | 6 => "Sunday" | 7 => "Monday" | 8 => "Tuesday"
  | 9 => "Wednesday" | 10 => "Thursday" | 11 => "Friday"
  | _ => ""
  end.

Definition events_xml : string :=
  "<Gocal><Gocaldate><Date>*/15</Date><Text>Rent</Text></Gocaldate></Gocal>".

Definition fair_xml : string :=
  "<Gocal><Gocaldate><Date>13/45</Date><Text>Fair</Text></Gocaldate></Gocal>".

Definition calendar_events : list Event :=
  [ {| GetSummary := "New Year"; GetStart := time_Date 2024 1 1 |};
    {| GetSummary := "Last year"; GetStart := time_Date 2023 12 31 |};
    {| GetSummary := "Party"; GetStart := time_Date 2024 6 15 |} ].

#[local] Instance env : Env := {|
  fmt_format := id;
  charset_NewWriter := fun _ => inr id;
  monday_Format := fun t layout _ =>
    if decide (layout = "Monday") then weekday_en t else layout;
  ics_events := fun filename =>
    if decide (filename = "calendar.ics") then calendar_events else [];
  os_file := fun filename =>
    if decide (filename = "events.xml") then Contents events_xml
    else if decide (filename = "fair.xml") then Contents fair_xml
    else if decide (filename = "broken.xml") then Contents "<Gocal>"
    else if decide (filename = "locked.xml") then ReadFails
    else OpenFails;
  xml_Unmarshal := fun data =>
    if decide (data = events_xml) then
      inr {| store_Gocaldate :=
               [ {| Date := "*/15"; Text := "Rent"; Image := "" |} ] |}
    else if decide (data = fair_xml) then
      inr {| store_Gocaldate :=
               [ {| Date := "13/45"; Text := "Fair"; Image := "" |} ] |}
    else inl "XML syntax error"
|}.

End Sample.

(** * The rest of util.go *)

(** ** Paths and suffixes of the standard library

    Package path/filepath as built for Unix, where [os.PathSeparator] is the
    slash, and [strings.TrimSuffix]. *)

Module GoPath.

(** The part of a path after its last slash. *)
Definition last_element (path : string) : string :=
  default "" (last (GoStd.Split path "/")).

(** The suffix of an element that begins at its final dot, if it has one. *)
Fixpoint from_last_dot (s : string) : string :=
  match s with
  | EmptyString => ""
  | String c s' =>
      match from_last_dot s' with
      | EmptyString => if Ascii.eqb c "." then s else ""
      | e => e
      end
  end.

(** [filepath.Ext]: the suffix beginning at the final dot in the final
    element of the path, empty if there is no dot. *)
Definition Ext (path : string) : string := from_last_dot (last_element path).

(** A path without its trailing slashes. *)
Fixpoint strip_trailing (s : string) : string :=
  match s with
  | EmptyString => ""
  | String c s' =>
      match strip_trailing s' with
      | EmptyString => if Ascii.eqb c "/" then "" else String c ""
      | t => String c t
      end
  end.

(** [filepath.Base]: the last element of the path, trailing slashes
    removed; a dot for the empty path, a slash for a path of slashes. *)
Definition Base (path : string) : string :=
  match path with
  | EmptyString => "."
  | _ =>
      match last_element (strip_trailing path) with
      | EmptyString => "/"
      | e => e
      end
  end.

(** [s] without the suffix [suffix], when it ends with it. *)
Fixpoint strip_suffix (s suffix : string) : option string :=
  if decide (s = suffix) then Some ""
  else match s with
       | EmptyString => None
       | String c s' => String c <$> strip_suffix s' suffix
       end.

Definition TrimSuffix (s suffix : string) : string :=
  default s (strip_suffix s suffix).

End GoPath.

(** ** Calls to the operating system, the network and gofpdf

    A run is described by the calls it makes, in order, and by what it
    returns; what each call answers is given by the system. *)

Inductive io_call :=
| call_TempDir                                   (* ioutil.TempDir("", "") *)
| call_WriteFile (filename data : string)        (* ioutil.WriteFile, 0700 *)
| call_MakeFont (fontFile encFile dst : string)  (* gofpdf.MakeFont *)
| call_Create (filename : string)                (* os.Create *)
| call_Get (url : string)                        (* http.Get *)
| call_Copy (filename body : string)             (* io.Copy(output, body) *)
| call_Close_body (url : string)                 (* retrieve.Body.Close() *)
| call_Close (filename : string)                 (* output.Close() *)
| call_Printf (line : string)                    (* fmt.Printf *)
| call_RemoveAll (path : string).                (* os.RemoveAll *)

(** What the calls answer: an error, or success (with its value). The three
    embedded font files are part of the program. *)
Class Sys := {
  TempDir_answer : string + string;
  WriteFile_answer : string -> string -> option string;
  MakeFont_answer : string -> string -> string -> option string;
  Create_answer : string -> option string;
  Get_answer : string -> string + string;
  Copy_answer : string -> string -> option string;
  freesansbold : string;
  freemonobold : string;
  freeserifbold : string
}.

(** A run: the calls made and the outcome. *)
Record io (A : Type) : Type := Run { calls : list io_call; result : outcome A }.
Arguments Run {A} calls result.
Arguments calls {A} _.
Arguments result {A} _.

#[global] Instance io_ret : MRet io := fun A a => Run [] (Ret a).

#[global] Instance io_bind : MBind io := fun A B f m =>
  match result m with
  | Ret a => Run (calls m ++ calls (f a)) (result (f a))
  | Fatal msg => Run (calls m) (Fatal msg)
  | Panic msg => Run (calls m) (Panic msg)
  end.

(** One call and its answer. *)
Definition io_call_with {A : Type} (c : io_call) (answer : A) : io A :=
  Run [c] (Ret answer).

(** [log.Fatal] *)
Definition io_fatal {A : Type} (msg : string) : io A := Run [] (Fatal msg).

Definition CLEARTEMP : bool := true.

(** The constant [codepageCP1252] of util.go. *)
Definition codepageCP1252 : string :=
"!00 U+0000 .notdef
!01 U+0001 .notdef
!02 U+0002 .notdef
!03 U+0003 .notdef
!04 U+0004 .notdef
!05 U+0005 .notdef
!06 U+0006 .notdef
!07 U+0007 .notdef
!08 U+0008 .notdef
!09 U+0009 .notdef
!0A U+000A .notdef
!0B U+000B .notdef
!0C U+000C .notdef
!0D U+000D .notdef
!0E U+000E .notdef
!0F U+000F .notdef
!10 U+0010 .notdef
!11 U+0011 .notdef
!12 U+0012 .notdef
!13 U+0013 .notdef
!14 U+0014 .notdef
!15 U+0015 .notdef
!16 U+0016 .notdef
!17 U+0017 .notdef
!18 U+0018 .notdef
!19 U+0019 .notdef
!1A U+001A .notdef
!1B U+001B .notdef
!1C U+001C .notdef
!1D U+001D .notdef
!1E U+001E .notdef
!1F U+001F .notdef
!20 U+0020 space
!21 U+0021 exclam
!22 U+0022 quotedbl
!23 U+0023 numbersign
!24 U+0024 dollar
!25 U+0025 percent
!26 U+0026 ampersand
!27 U+0027 quotesingle
!28 U+0028 parenleft
!29 U+0029 parenright
!2A U+002A asterisk
!2B U+002B plus
!2C U+002C comma
!2D U+002D hyphen
!2E U+002E period
!2F U+002F slash
!30 U+0030 zero
!31 U+0031 one
!32 U+0032 two
!33 U+0033 three
!34 U+0034 four
!35 U+0035 five
!36 U+0036 six
!37 U+0037 seven
!38 U+0038 eight
!39 U+0039 nine
!3A U+003A colon
!3B U+003B semicolon
!3C U+003C less
!3D U+003D equal
!3E U+003E greater
!3F U+003F question
!40 U+0040 at
!41 U+0041 A
!42 U+0042 B
!43 U+0043 C
!44 U+0044 D
!45 U+0045 E
!46 U+0046 F
!47 U+0047 G
!48 U+0048 H
!49 U+0049 I
!4A U+004A J
!4B U+004B K
!4C U+004C L
!4D U+004D M
!4E U+004E N
!4F U+004F O
!50 U+0050 P
!51 U+0051 Q
!52 U+0052 R
!53 U+0053 S
!54 U+0054 T
!55 U+0055 U
!56 U+0056 V
!57 U+0057 W
!58 U+0058 X
!59 U+0059 Y
!5A U+005A Z
!5B U+005B bracketleft
!5C U+005C backslash
!5D U+005D bracketright
!5E U+005E asciicircum
!5F U+005F underscore
!60 U+0060 grave
!61 U+0061 a
!62 U+0062 b
!63 U+0063 c
!64 U+0064 d
!65 U+0065 e
!66 U+0066 f
!67 U+0067 g
!68 U+0068 h
!69 U+0069 i
!6A U+006A j
!6B U+006B k
!6C U+006C l
!6D U+006D m
!6E U+006E n
!6F U+006F o
!70 U+0070 p
!71 U+0071 q
!72 U+0072 r
!73 U+0073 s
!74 U+0074 t
!75 U+0075 u
!76 U+0076 v
!77 U+0077 w
!78 U+0078 x
!79 U+0079 y
!7A U+007A z
!7B U+007B braceleft
!7C U+007C bar
!7D U+007D braceright
!7E U+007E asciitilde
!7F U+007F .notdef
!80 U+20AC Euro
!82 U+201A quotesinglbase
!83 U+0192 florin
!84 U+201E quotedblbase
!85 U+2026 ellipsis
!86 U+2020 dagger
!87 U+2021 daggerdbl
!88 U+02C6 circumflex
!89 U+2030 perthousand
!8A U+0160 Scaron
!8B U+2039 guilsinglleft
!8C U+0152 OE
!8E U+017D Zcaron
!91 U+2018 quoteleft
!92 U+2019 quoteright
!93 U+201C quotedblleft
!94 U+201D quotedblright
!95 U+2022 bullet
!96 U+2013 endash
!97 U+2014 emdash
!98 U+02DC tilde
!99 U+2122 trademark
!9A U+0161 scaron
!9B U+203A guilsinglright
!9C U+0153 oe
!9E U+017E zcaron
!9F U+0178 Ydieresis
!A0 U+00A0 space
!A1 U+00A1 exclamdown
!A2 U+00A2 cent
!A3 U+00A3 sterling
!A4 U+00A4 currency
!A5 U+00A5 yen
!A6 U+00A6 brokenbar
!A7 U+00A7 section
!A8 U+00A8 dieresis
!A9 U+00A9 copyright
!AA U+00AA ordfeminine
!AB U+00AB guillemotleft
!AC U+00AC logicalnot
!AD U+00AD hyphen
!AE U+00AE registered
!AF U+00AF macron
!B0 U+00B0 degree
!B1 U+00B1 plusminus
!B2 U+00B2 twosuperior
!B3 U+00B3 threesuperior
!B4 U+00B4 acute
!B5 U+00B5 mu
!B6 U+00B6 paragraph
!B7 U+00B7 periodcentered
!B8 U+00B8 cedilla
!B9 U+00B9 onesuperior
!BA U+00BA ordmasculine
!BB U+00BB guillemotright
!BC U+00BC onequarter
!BD U+00BD onehalf
!BE U+00BE threequarters
!BF U+00BF questiondown
!C0 U+00C0 Agrave
!C1 U+00C1 Aacute
!C2 U+00C2 Acircumflex
!C3 U+00C3 Atilde
!C4 U+00C4 Adieresis
!C5 U+00C5 Aring
!C6 U+00C6 AE
!C7 U+00C7 Ccedilla
!C8 U+00C8 Egrave
!C9 U+00C9 Eacute
!CA U+00CA Ecircumflex
!CB U+00CB Edieresis
!CC U+00CC Igrave
!CD U+00CD Iacute
!CE U+00CE Icircumflex
!CF U+00CF Idieresis
!D0 U+00D0 Eth
!D1 U+00D1 Ntilde
!D2 U+00D2 Ograve
!D3 U+00D3 Oacute
!D4 U+00D4 Ocircumflex
!D5 U+00D5 Otilde
!D6 U+00D6 Odieresis
!D7 U+00D7 multiply
!D8 U+00D8 Oslash
!D9 U+00D9 Ugrave
!DA U+00DA Uacute
!DB U+00DB Ucircumflex
!DC U+00DC Udieresis
!DD U+00DD Yacute
!DE U+00DE Thorn
!DF U+00DF germandbls
!E0 U+00E0 agrave
!E1 U+00E1 aacute
!E2 U+00E2 acircumflex
!E3 U+00E3 atilde
!E4 U+00E4 adieresis
!E5 U+00E5 aring
!E6 U+00E6 ae
!E7 U+00E7 ccedilla
!E8 U+00E8 egrave
!E9 U+00E9 eacute
!EA U+00EA ecircumflex
!EB U+00EB edieresis
!EC U+00EC igrave
!ED U+00ED iacute
!EE U+00EE icircumflex
!EF U+00EF idieresis
!F0 U+00F0 eth
!F1 U+00F1 ntilde
!F2 U+00F2 ograve
!F3 U+00F3 oacute
!F4 U+00F4 ocircumflex
!F5 U+00F5 otilde
!F6 U+00F6 odieresis
!F7 U+00F7 divide
!F8 U+00F8 oslash
!F9 U+00F9 ugrave
!FA U+00FA uacute
!FB U+00FB ucircumflex
!FC U+00FC udieresis
!FD U+00FD yacute
!FE U+00FE thorn
!FF U+00FF ydieresis
".

Section System.
Context `{Sys}.

(** [removeTempdir] *)
Definition removeTempdir (d : string) : io unit :=
  if negb CLEARTEMP then mret tt
  else io_call_with (call_RemoveAll d) tt.

(** [processFont]: the font name and the temporary directory. *)
Definition processFont (fontFile : string) : io (string * string) :=
  r ← io_call_with call_TempDir TempDir_answer;
  match r with
  | inl err => io_fatal err
  | inr tempDirname =>
      fontFile ←
        (if decide (fontFile = "mono") then
           let fontFile := tempDirname +:+ "/" +:+ "freemonobold.ttf" in
           io_call_with (call_WriteFile fontFile freemonobold) fontFile
         else if decide (fontFile = "serif") then
           let fontFile := tempDirname +:+ "/" +:+ "freeserifbold.ttf" in
           io_call_with (call_WriteFile fontFile freeserifbold) fontFile
         else if decide (fontFile = "sans") then
           let fontFile := tempDirname +:+ "/" +:+ "freesansbold.ttf" in
           io_call_with (call_WriteFile fontFile freesansbold) fontFile
         else mret fontFile);
      let encFile := tempDirname +:+ "/" +:+ "cp1252.map" in
      err ← io_call_with (call_WriteFile encFile codepageCP1252)
               (WriteFile_answer encFile codepageCP1252);
      match err with
      | Some e => io_fatal e
      | None =>
          err ← io_call_with (call_MakeFont fontFile encFile tempDirname)
                   (MakeFont_answer fontFile encFile tempDirname);
          match err with
          | Some e => io_fatal e
          | None =>
              let fontName := GoPath.Base fontFile in
              let fontName :=
                GoPath.TrimSuffix fontName (GoPath.Ext fontName) in
              mret (fontName, tempDirname)
          end
      end
  end.

(** [downloadFile]. The result is named: every [return] gives back the
    value [fileName] holds; the deferred calls run when the function
    returns, the last deferred first. *)
Definition downloadFile (input tempDir : string) : io string :=
  let extension := GoPath.Ext input in
  let fileName := "image" +:+ extension in
  let fileName := tempDir +:+ "/" +:+ fileName in
  err ← io_call_with (call_Create fileName) (Create_answer fileName);
  match err with
  | Some _ =>
      io_call_with (call_Printf "# Error creating <nil>") tt;;
      mret fileName
  | None =>
      r ← io_call_with (call_Get input) (Get_answer input);
      match r with
      | inl _ =>
          io_call_with (call_Printf ("# Error downloading " +:+ input)) tt;;
          io_call_with (call_Close fileName) tt;;
          mret fileName
      | inr body =>
          err ← io_call_with (call_Copy fileName body)
                   (Copy_answer fileName body);
          match err with
          | Some _ =>
              io_call_with (call_Printf ("# Error copying " +:+ input)) tt;;
              io_call_with (call_Close_body input) tt;;
              io_call_with (call_Close fileName) tt;;
              mret fileName
          | None =>
              io_call_with (call_Close_body input) tt;;
              io_call_with (call_Close fileName) tt;;
              mret fileName
          end
      end
  end.

End System.

(** ** Month names *)

Section MonthNames.
Context `{Env}.

(** The body of the loop of [getLocalizedMonthNames]; [monthnames] is the
    array of 13 strings, and [fmt.Sprintf] with the verb [%s] gives back the
    string it is applied to. *)
Definition getLocalizedMonthNames_page (locale : string)
    (monthnames : list string) (page : Z) : outcome (list string) :=
  let t := time_Date 2013 page 1 in
  name ← convertCP (monday_Format t "January" locale);
  Ret (<[Z.to_nat page := name]> monthnames).

Definition getLocalizedMonthNames (locale : string) : outcome (list string) :=
  for_range (getLocalizedMonthNames_page locale) (replicate 13 "") (seqZ 1 12).

(** The converted name of month [page]. *)
Definition month_name (locale : string) (conv : string -> string) (page : Z)
    : string :=
  conv (monday_Format (time_Date 2013 page 1) "January" locale).

End MonthNames.

(** ** Notions the further properties are stated with *)

(** A value of 32 bits, and the nearest one to an integer. *)
Definition int32 (z : Z) : Prop := - 2 ^ 31 <= z <= 2 ^ 31 - 1.

Definition clamp32 (z : Z) : Z := Z.max (- 2 ^ 31) (Z.min z (2 ^ 31 - 1)).

(** [s] begins with [p]. *)
Fixpoint has_prefix (p s : string) : bool :=
  match p, s with
  | EmptyString, _ => true
  | String a p', String b s' => Ascii.eqb a b && has_prefix p' s'
  | String _ _, EmptyString => false
  end.

(** The number a string of decimal digits stands for, and the numbers of a
    key of the year-wide map, read back. *)
Fixpoint decimal_value_go (n : Z) (s : string) : Z :=
  match s with
  | EmptyString => n
  | String c s' => decimal_value_go (n * 10 + GoStd.digit_val c) s'
  end.

Definition decimal_value (s : string) : Z := decimal_value_go 0 s.

Definition read_key (key : string) : list Z :=
  decimal_value <$> GoStd.Split key "-".

(** The line [computeMoonphases] prints for a phase on day [i]. *)
Definition announcement (name : string) (mo yr i : Z) : string :=
  name +:+ " moon on " +:+ GoStd.itoa i +:+ "." +:+ GoStd.itoa mo +:+ "."
    +:+ GoStd.itoa yr.

(** The key of the year-wide map for a date. *)
Definition date_key (y m d : Z) : string :=
  GoStd.Sprintf_0d 4 y +:+ "-" +:+ GoStd.Sprintf_0d 2 m +:+ "-"
    +:+ GoStd.Sprintf_0d 2 d.

(** A sample event list that holds an entry out of range before one in
    range. *)
Module SampleMixed.

Definition mixed_xml : string :=
  "<Gocal><Gocaldate><Date>13/45</Date><Text>Fair</Text></Gocaldate>"
  +:+ "<Gocaldate><Date>3/7</Date><Text>Ann</Text></Gocaldate></Gocal>".

#[local] Instance env : Env := {|
  fmt_format := id;
  charset_NewWriter := fun _ => inr id;
  monday_Format := fun _ layout _ => layout;
  ics_events := fun _ => [];
  os_file := fun filename =>
    if decide (filename = "mixed.xml") then Contents mixed_xml
    else OpenFails;
  xml_Unmarshal := fun data =>
    if decide (data = mixed_xml) then
      inr {| store_Gocaldate :=
               [ {| Date := "13/45"; Text := "Fair"; Image := "" |};
                 {| Date := "3/7"; Text := "Ann"; Image := "" |} ] |}
    else inl "XML syntax error"
|}.

End SampleMixed.

(** A sample system: every call succeeds. *)
Module SampleSys.

#[local] Instance sys : Sys := {|
  TempDir_answer := inr "/tmp/012345";
  WriteFile_answer := fun _ _ => None;
  MakeFont_answer := fun _ _ _ => None;
  Create_answer := fun _ => None;
  Get_answer := fun _ => inr "bytes";
  Copy_answer := fun _ _ => None;
  freesansbold := "sans bytes";
  freemonobold := "mono bytes";
  freeserifbold := "serif bytes"
|}.

End SampleSys.

(** * Facts about the standard library functions *)

Section GoStdFacts.
Import GoStd.

Lemma app_cons (c : ascii) (s t : string) :
  String c s +:+ t = String c (s +:+ t).
Proof. reflexivity. Qed.

Lemma app_nil (t : string) : "" +:+ t = t.
Proof. reflexivity. Qed.

Lemma digit_char_spec (d : Z) :
  0 <= d < 10 -> is_digit (digit_char d) = true /\ digit_val (digit_char d) = d.
Proof.
  intros Hd.
  assert (Hc : d = 0 \/ d = 1 \/ d = 2 \/ d = 3 \/ d = 4 \/ d = 5 \/ d = 6
               \/ d = 7 \/ d = 8 \/ d = 9) by lia.
  repeat destruct Hc as [-> | Hc]; try subst d; by vm_compute.
Qed.

Lemma digit_not_sign (c : ascii) :
  is_digit c = true ->
  Ascii.eqb c "+" = false /\ Ascii.eqb c "-" = false /\ Ascii.eqb c "/" = false.
Proof.
  intros Hc. repeat split; apply Ascii.eqb_neq; intros ->; by vm_compute in Hc.
Qed.

Lemma ParseUint_go_app (s1 s2 : string) (a : Z) :
  ParseUint_go a (s1 +:+ s2) =
  match ParseUint_go a s1 with
  | (v, None) => ParseUint_go v s2
  | r => r
  end.
Proof.
  revert a. induction s1 as [|c s1 IH]; intros a; [done |].
  rewrite app_cons. cbn [ParseUint_go].
  destruct (is_digit c); [| done].
  destruct (maxVal32 <? a * 10 + digit_val c); [done | apply IH].
Qed.

Lemma ParseUint_go_digits (fuel : nat) (n : Z) :
  0 <= n < 10 ^ Z.of_nat fuel -> n <= maxVal32 ->
  ParseUint_go 0 (digits_go fuel n) = (n, None).
Proof.
  revert n. induction fuel as [|f IH]; intros n Hn Hmax.
  - simpl in *. by replace n with 0 by lia.
  - cbn [digits_go]. rewrite ParseUint_go_app.
    assert (Hd : 0 <= n mod 10 < 10) by (apply Z.mod_pos_bound; lia).
    destruct (digit_char_spec _ Hd) as [Hdig Hval].
    assert (Hstep : forall v, v * 10 + n mod 10 = n ->
              ParseUint_go v (String (digit_char (n mod 10)) "") = (n, None)).
    { intros v Hv. cbn [ParseUint_go]. rewrite Hdig, Hval, Hv.
      destruct (maxVal32 <? n) eqn:E; [lia | done]. }
    destruct (n <? 10) eqn:E10.
    + cbn [ParseUint_go]. apply Hstep. rewrite Z.mod_small; lia.
    + rewrite IH.
      * apply Hstep. pose proof (Z.div_mod n 10). lia.
      * rewrite Nat2Z.inj_succ, Z.pow_succ_r in Hn by lia.
        split; [apply Z.div_pos; lia | apply Z.div_lt_upper_bound; lia].
      * pose proof (Z.div_mod n 10). lia.
Qed.

Lemma digits_fuel_enough (n : Z) :
  0 <= n -> n < 10 ^ Z.of_nat (S (Z.to_nat (Z.log2 n))).
Proof.
  intros Hn.
  destruct (decide (n = 0)) as [-> | Hne]; [done |].
  rewrite Nat2Z.inj_succ, Z2Nat.id by apply Z.log2_nonneg.
  pose proof (Z.log2_spec n ltac:(lia)) as [_ Hlt].
  eapply Z.lt_le_trans; [exact Hlt |].
  apply Z.pow_le_mono_l. pose proof (Z.log2_nonneg n). lia.
Qed.

Lemma ParseUint_go_zeros (k : nat) (s : string) :
  ParseUint_go 0 (zeros k +:+ s) = ParseUint_go 0 s.
Proof.
  induction k as [|k IH]; [done |].
  cbn [zeros]. rewrite app_cons. exact IH.
Qed.

Lemma digits_nonempty (n : Z) : digits n <> "".
Proof.
  unfold digits. cbn [digits_go].
  destruct (if n <? 10 then _ else _); rewrite ?app_cons; discriminate.
Qed.

Lemma pad0_nonempty (w : nat) (s : string) : s <> "" -> pad0 w s <> "".
Proof. unfold pad0. destruct (zeros _), s; rewrite ?app_cons; done. Qed.

Lemma numeral_nonempty (w : nat) (n : Z) : numeral w n <> "".
Proof. apply pad0_nonempty, digits_nonempty. Qed.

Lemma ParseUint_numeral (w : nat) (n : Z) :
  0 <= n <= maxVal32 -> ParseUint (numeral w n) = (n, None).
Proof.
  intros Hn. unfold ParseUint.
  destruct (numeral w n) eqn:E; [by apply numeral_nonempty in E |].
  rewrite <- E. unfold numeral, pad0. rewrite ParseUint_go_zeros.
  apply ParseUint_go_digits; [| lia].
  split; [lia | apply digits_fuel_enough; lia].
Qed.

Lemma all_digits_app (s1 s2 : string) :
  all_digits (s1 +:+ s2) = all_digits s1 && all_digits s2.
Proof.
  induction s1 as [|c s1 IH]; [done |].
  rewrite app_cons. cbn [all_digits]. by rewrite IH, andb_assoc.
Qed.

Lemma all_digits_digits_go (fuel : nat) (n : Z) :
  0 <= n -> all_digits (digits_go fuel n) = true.
Proof.
  revert n. induction fuel as [|f IH]; intros n Hn; [done |].
  cbn [digits_go]. rewrite all_digits_app.
  assert (Hd : 0 <= n mod 10 < 10) by (apply Z.mod_pos_bound; lia).
  destruct (digit_char_spec _ Hd) as [Hdig _].
  cbn [all_digits]. rewrite Hdig.
  destruct (n <? 10); [done |].
  rewrite IH; [done | apply Z.div_pos; lia].
Qed.

Lemma all_digits_zeros (k : nat) : all_digits (zeros k) = true.
Proof. induction k as [|k IH]; [done | exact IH]. Qed.

Lemma all_digits_numeral (w : nat) (n : Z) :
  0 <= n -> all_digits (numeral w n) = true.
Proof.
  intros Hn. unfold numeral, pad0, digits.
  by rewrite all_digits_app, all_digits_zeros, all_digits_digits_go.
Qed.

Lemma Index_ge (s : string) (c : ascii) : -1 <= Index s c.
Proof.
  induction s as [|a s IH]; cbn [Index]; [lia |].
  destruct (Ascii.eqb a c); [lia |].
  destruct (Index s c =? -1); lia.
Qed.

Lemma Index_all_digits (s : string) :
  all_digits s = true -> Index s "/" = -1.
Proof.
  induction s as [|a s IH]; [done |].
  cbn [all_digits Index]. intros [Ha Hs]%andb_prop.
  destruct (digit_not_sign _ Ha) as (_ & _ & ->).
  by rewrite (IH Hs).
Qed.

Lemma Index_app_sep (s1 s2 : string) (c : ascii) :
  Index (s1 +:+ String c s2) c <> -1.
Proof.
  induction s1 as [|a s1 IH].
  - rewrite app_nil. cbn [Index]. by rewrite Ascii.eqb_refl.
  - rewrite app_cons. cbn [Index]. destruct (Ascii.eqb a c); [done |].
    destruct (Index _ c =? -1) eqn:E; [lia |].
    pose proof (Index_ge (s1 +:+ String c s2) c). lia.
Qed.

Lemma Split_absent (s : string) (c : ascii) :
  Index s c = -1 -> Split s c = [s].
Proof.
  induction s as [|a s IH]; [done |].
  cbn [Index Split]. destruct (Ascii.eqb a c); [done |].
  destruct (Index s c =? -1) eqn:E.
  - intros _. rewrite IH by lia. done.
  - pose proof (Index_ge s c). lia.
Qed.

Lemma Split_app_sep (s1 s2 : string) (c : ascii) :
  Index s1 c = -1 -> Split (s1 +:+ String c s2) c = s1 :: Split s2 c.
Proof.
  induction s1 as [|a s1 IH].
  - intros _. rewrite app_nil. cbn [Split]. by rewrite Ascii.eqb_refl.
  - rewrite app_cons. cbn [Index Split]. destruct (Ascii.eqb a c); [done |].
    destruct (Index s1 c =? -1) eqn:E.
    + intros _. rewrite IH by lia. done.
    + pose proof (Index_ge s1 c). lia.
Qed.

(** What [Time.Format] prints for a year, month or day is read back by
    [strconv.ParseInt] with 32 bits. *)
Lemma GoStd_ParseInt_appendInt (x : Z) (w : nat) :
  - 2 ^ 31 <= x <= 2 ^ 31 - 1 -> ParseInt (appendInt x w) = (x, None).
Proof.
  intros Hx. unfold appendInt.
  destruct (x <? 0) eqn:Eneg.
  - rewrite app_cons, app_nil. cbn [ParseInt].
    replace (Ascii.eqb "-" "+") with false by done.
    replace (Ascii.eqb "-" "-") with true by done.
    unfold ParseInt_unsigned.
    rewrite ParseUint_numeral by (unfold maxVal32; lia).
    cbn [negb andb].
    destruct (2 ^ 31 <? - x) eqn:E; [lia |]. f_equal. lia.
  - pose proof (all_digits_numeral w x ltac:(lia)) as Hall.
    pose proof (ParseUint_numeral w x ltac:(unfold maxVal32; lia)) as Hp.
    destruct (numeral w x) as [|c s] eqn:E; [by apply numeral_nonempty in E |].
    cbn [all_digits] in Hall. apply andb_prop in Hall as [Hc _].
    destruct (digit_not_sign _ Hc) as (Hplus & Hminus & _).
    cbn [ParseInt]. rewrite Hplus, Hminus.
    unfold ParseInt_unsigned. rewrite Hp. cbn [negb andb].
    destruct (2 ^ 31 <=? x) eqn:E'; [lia | done].
Qed.

(** A decimal numeral is read back as its number. *)
Lemma GoStd_ParseInt_numeral (w : nat) (n : Z) :
  0 <= n <= 2 ^ 31 - 1 -> ParseInt (numeral w n) = (n, None).
Proof.
  intros Hn. pose proof (GoStd_ParseInt_appendInt n w ltac:(lia)) as Hp.
  unfold appendInt in Hp.
  destruct (n <? 0) eqn:E; [lia |]. exact Hp.
Qed.

Lemma Index_numeral (w : nat) (n : Z) :
  0 <= n -> Index (numeral w n) "/" = -1.
Proof. intros Hn. by apply Index_all_digits, all_digits_numeral. Qed.

Lemma numeral_not_star (w : nat) (n : Z) : 0 <= n -> numeral w n <> "*".
Proof.
  intros Hn Heq. pose proof (all_digits_numeral w n Hn) as Hall.
  rewrite Heq in Hall. by vm_compute in Hall.
Qed.

(** Some values. *)

Example ParseInt_15 : ParseInt "15" = (15, None).
Proof. reflexivity. Qed.

Example ParseInt_letters : ParseInt "1x" = (0, Some ErrSyntax).
Proof. reflexivity. Qed.

Example ParseInt_clamps : ParseInt "99999999999" = (2147483647, Some ErrRange).
Proof. reflexivity. Qed.

Example ParseInt_negative : ParseInt "-0005" = (-5, None).
Proof. reflexivity. Qed.

Example Split_every_month : Split "*/15" "/" = ["*"; "15"].
Proof. reflexivity. Qed.

Example Split_empty : Split "" "/" = [""].
Proof. reflexivity. Qed.

Example Sprintf_0d_negative : Sprintf_0d 4 (-5) = "-005".
Proof. reflexivity. Qed.

Example appendInt_negative : appendInt (-5) 4 = "-0005".
Proof. reflexivity. Qed.

End GoStdFacts.

(** * The importer, the expander and the locale names *)

Section EventFacts.
Context `{Env}.

Lemma for_range_app {A B : Type} (body : B -> A -> outcome B) (acc : B)
    (l1 l2 : list A) :
  for_range body acc (l1 ++ l2) =
  acc' ← for_range body acc l1; for_range body acc' l2.
Proof.
  revert acc. induction l1 as [|x l1 IH]; intros acc; [done |].
  cbn [app for_range]. destruct (body acc x); cbn; [apply IH | done | done].
Qed.

(** A loop whose body appends to the accumulator what it makes of the
    element returns the accumulator followed by all of it, in order. *)
Lemma for_range_appends {A B : Type} (body : list B -> A -> outcome (list B))
    (out : A -> list B) (l : list A) (acc : list B) :
  (forall acc x, x ∈ l -> body acc x = Ret (acc ++ out x)) ->
  for_range body acc l = Ret (acc ++ l ≫= out).
Proof.
  revert acc. induction l as [|x l IH]; intros acc Hbody.
  - cbn. by rewrite app_nil_r.
  - cbn [for_range]. rewrite Hbody by left. cbn.
    rewrite IH by (intros; apply Hbody; by right).
    by rewrite <- app_assoc.
Qed.

Lemma readICSfile_event_valid (conv : string -> string) (targetyear : Z)
    (eL : list gDate) (e : Event) :
  converts conv ->
  valid_date (GetStart e) ->
  readICSfile_event targetyear eL e =
  Ret (eL ++ if decide (Year (GetStart e) = targetyear)
             then [mk_gDate (Month (GetStart e)) (Day (GetStart e))
                     (conv (GetSummary e)) "" ""]
             else []).
Proof.
  intros Hconv (Hy & Hm & Hd). unfold readICSfile_event.
  rewrite Hconv. cbn.
  rewrite !GoStd_ParseInt_appendInt by lia. cbn.
  destruct (decide (targetyear = Year (GetStart e))) as [-> | Hne].
  - by rewrite decide_True.
  - rewrite decide_False by done. by rewrite app_nil_r.
Qed.

(** C2. The importer does not return what C2 says. The caller does not wait
    for the goroutine that takes the events, so what it returns covers the
    events that goroutine has handled by then and no others: for every file,
    every target year and every number [drained] of events handled, it
    returns, in the order the events were parsed, one entry for each of the
    first [drained] events whose start year is the target year, with the
    month and the day of the start date, the converted summary, and an empty
    weekday and image. An event after these is left out though its year is
    the target year. The start dates are those a [time.Time] holds, the year
    within 32 bits. *)
Theorem readICSfile_returns_what_was_appended (conv : string -> string)
    (filename : string) (targetyear : Z) (drained : nat) :
  converts conv ->
  Forall (fun e => valid_date (GetStart e)) (ics_events filename) ->
  readICSfile filename targetyear drained =
  Ret ((fun e => mk_gDate (Month (GetStart e)) (Day (GetStart e))
                   (conv (GetSummary e)) "" "")
         <$> filter (fun e => Year (GetStart e) = targetyear)
                    (take drained (ics_events filename))).
Proof.
  intros Hconv Hvalid. unfold readICSfile.
  apply (Forall_take _ drained) in Hvalid.
  rewrite (for_range_appends _
    (fun e => if decide (Year (GetStart e) = targetyear)
              then [mk_gDate (Month (GetStart e)) (Day (GetStart e))
                      (conv (GetSummary e)) "" ""]
              else [])).
  - f_equal. cbn [app]. clear Hvalid.
    induction (take drained (ics_events filename)) as [|e l IH]; [done |].
    cbn [mbind list_bind]. rewrite filter_cons.
    destruct (decide (Year (GetStart e) = targetyear)); cbn; by rewrite IH.
  - intros acc e He. apply readICSfile_event_valid; [done |].
    by eapply (proj1 (Forall_forall _ _) Hvalid).
Qed.

Lemma foldl_snoc_map {A B : Type} (g : A -> B) (l : list A) (acc : list B) :
  foldl (fun acc j => acc ++ [g j]) acc l = acc ++ (g <$> l).
Proof.
  revert acc. induction l as [|x l IH]; intros acc; cbn.
  - by rewrite app_nil_r.
  - rewrite IH. by rewrite <- app_assoc.
Qed.

Lemma index_0 {A : Type} (x : A) (l : list A) : index (x :: l) 0 = Ret x.
Proof. reflexivity. Qed.

Lemma index_1 {A : Type} (x y : A) (l : list A) :
  index (x :: y :: l) 1 = Ret y.
Proof. reflexivity. Qed.

(** The three forms of the [Date] field. *)

Lemma readConfigurationfile_entry_every_month (conv : string -> string)
    (eL : list gDate) (m : Gocaldate) (D : Z) (w : nat) :
  converts conv -> 0 <= D <= 2 ^ 31 - 1 ->
  Date m = "*/" +:+ GoStd.numeral w D ->
  readConfigurationfile_entry eL m =
  Ret (eL ++ ((fun j => mk_gDate j D (conv (Text m)) "" (Image m))
                <$> seqZ 1 12)).
Proof.
  intros Hconv HD HDate. unfold readConfigurationfile_entry.
  assert (Hno : GoStd.Index (GoStd.numeral w D) "/" = -1).
  { apply Index_numeral. lia. }
  rewrite HDate, !app_cons, app_nil.
  cbn [GoStd.Index GoStd.Split]. rewrite Hno.
  replace (Ascii.eqb "*" "/") with false by done.
  replace (Ascii.eqb "/" "/") with true by done.
  rewrite (Split_absent _ _ Hno). cbn [Z.eqb Z.add negb].
  rewrite Hconv. cbn [mbind outcome_bind].
  rewrite index_0. cbn [mbind outcome_bind].
  rewrite decide_True by done.
  rewrite index_1. cbn [mbind outcome_bind].
  rewrite GoStd_ParseInt_numeral by lia. cbn [fst].
  by rewrite foldl_snoc_map.
Qed.

Lemma readConfigurationfile_entry_month_day (conv : string -> string)
    (eL : list gDate) (m : Gocaldate) (M D : Z) (wM wD : nat) :
  converts conv -> 0 <= M <= 2 ^ 31 - 1 -> 0 <= D <= 2 ^ 31 - 1 ->
  Date m = GoStd.numeral wM M +:+ String "/" (GoStd.numeral wD D) ->
  readConfigurationfile_entry eL m =
  Ret (eL ++ [mk_gDate M D (conv (Text m)) "" (Image m)]).
Proof.
  intros Hconv HM HD HDate. unfold readConfigurationfile_entry.
  assert (HnoM : GoStd.Index (GoStd.numeral wM M) "/" = -1).
  { apply Index_numeral. lia. }
  assert (HnoD : GoStd.Index (GoStd.numeral wD D) "/" = -1).
  { apply Index_numeral. lia. }
  rewrite HDate.
  destruct (GoStd.Index _ "/" =? -1) eqn:E.
  { apply Z.eqb_eq in E. by apply Index_app_sep in E. }
  cbn [negb]. rewrite (Split_app_sep _ _ _ HnoM), (Split_absent _ _ HnoD).
  rewrite Hconv. cbn [mbind outcome_bind].
  rewrite index_0. cbn [mbind outcome_bind].
  rewrite decide_False by (apply numeral_not_star; lia).
  rewrite index_1. cbn [mbind outcome_bind].
  by rewrite !GoStd_ParseInt_numeral by lia.
Qed.

Lemma readConfigurationfile_entry_weekday (conv : string -> string)
    (eL : list gDate) (m : Gocaldate) :
  converts conv -> GoStd.Index (Date m) "/" = -1 ->
  readConfigurationfile_entry eL m =
  Ret (eL ++ [mk_gDate 0 0 (conv (Text m)) (Date m) (Image m)]).
Proof.
  intros Hconv Hno. unfold readConfigurationfile_entry.
  rewrite Hno. change (negb (-1 =? -1)) with false. cbn iota.
  rewrite Hconv. reflexivity.
Qed.

(** C3. An entry whose [Date] is [*/D], [D] a day number in decimal (with
    or without leading zeros), makes the expander append exactly 12 entries,
    one per month 1 to 12 in this order, all with day [D], the converted
    text, an empty weekday and the image of the entry; a file holding this
    entry alone gives exactly these 12. *)
Theorem readConfigurationfile_every_month (conv : string -> string)
    (m : Gocaldate) (D : Z) (w : nat) :
  converts conv -> 1 <= D <= 31 ->
  Date m = "*/" +:+ GoStd.numeral w D ->
  let twelve :=
    (fun j => mk_gDate j D (conv (Text m)) "" (Image m))
      <$> [1; 2; 3; 4; 5; 6; 7; 8; 9; 10; 11; 12] in
  (forall eL, readConfigurationfile_entry eL m = Ret (eL ++ twelve)) /\
  (forall filename data,
      os_file filename = Contents data ->
      xml_Unmarshal data = inr {| store_Gocaldate := [m] |} ->
      readConfigurationfile filename = Ret twelve).
Proof.
  intros Hconv HD HDate twelve.
  assert (Hentry : forall eL,
            readConfigurationfile_entry eL m = Ret (eL ++ twelve)).
  { intros eL.
    rewrite (readConfigurationfile_entry_every_month conv eL m D w);
      [reflexivity | done | lia | done]. }
  split; [exact Hentry |].
  intros filename data Hfile Hxml. unfold readConfigurationfile.
  rewrite Hfile, Hxml. cbn [store_Gocaldate for_range].
  by rewrite Hentry.
Qed.

(** Invariants of a loop that returns. *)
Lemma for_range_Forall {A B : Type} (P : B -> Prop)
    (body : list B -> A -> outcome (list B)) (l : list A) (acc r : list B) :
  (forall acc x acc', x ∈ l -> Forall P acc -> body acc x = Ret acc' ->
                      Forall P acc') ->
  Forall P acc -> for_range body acc l = Ret r -> Forall P r.
Proof.
  revert acc. induction l as [|x l IH]; intros acc Hbody Hacc Hret.
  - cbn in Hret. by injection Hret as <-.
  - cbn [for_range] in Hret.
    destruct (body acc x) as [acc' | |] eqn:E; cbn in Hret; try done.
    apply (IH acc'); [| | done].
    + intros a y a' Hy. apply Hbody. by right.
    + eapply Hbody; [by left | done | done].
Qed.

Lemma readConfigurationfile_entry_wf (eL eL' : list gDate) (m : Gocaldate) :
  wf_Date (Date m) -> Forall well_addressed eL ->
  readConfigurationfile_entry eL m = Ret eL' -> Forall well_addressed eL'.
Proof.
  intros Hwf HeL Hret.
  destruct (convertCP (Text m)) as [t | |] eqn:Ht.
  2,3: unfold readConfigurationfile_entry in Hret; rewrite Ht in Hret;
       by destruct (negb _).
  revert Hret.
  inversion Hwf as [M D wM wD HM HD HDate | D wD HD HDate | s Hs Hno HDate].
  - unfold readConfigurationfile_entry.
    assert (HnoM : GoStd.Index (GoStd.numeral wM M) "/" = -1).
    { apply Index_numeral. lia. }
    assert (HnoD : GoStd.Index (GoStd.numeral wD D) "/" = -1).
    { apply Index_numeral. lia. }
    rewrite <- HDate.
    destruct (GoStd.Index _ "/" =? -1) eqn:E.
    { apply Z.eqb_eq in E. by apply Index_app_sep in E. }
    cbn [negb]. rewrite (Split_app_sep _ _ _ HnoM), (Split_absent _ _ HnoD).
    rewrite Ht. cbn [mbind outcome_bind].
    rewrite index_0. cbn [mbind outcome_bind].
    rewrite decide_False by (apply numeral_not_star; lia).
    rewrite index_1. cbn [mbind outcome_bind].
    rewrite !GoStd_ParseInt_numeral by lia. cbn [fst].
    intros [= <-]. apply Forall_app. split; [done |].
    constructor; [| done]. left. repeat split; cbn; lia.
  - unfold readConfigurationfile_entry.
    assert (Hno : GoStd.Index (GoStd.numeral wD D) "/" = -1).
    { apply Index_numeral. lia. }
    rewrite <- HDate, !app_cons, app_nil.
    cbn [GoStd.Index GoStd.Split]. rewrite Hno.
    replace (Ascii.eqb "*" "/") with false by done.
    replace (Ascii.eqb "/" "/") with true by done.
    rewrite (Split_absent _ _ Hno). cbn [Z.eqb Z.add negb].
    rewrite Ht. cbn [mbind outcome_bind].
    rewrite index_0. cbn [mbind outcome_bind].
    rewrite decide_True by done.
    rewrite index_1. cbn [mbind outcome_bind].
    rewrite GoStd_ParseInt_numeral by lia. cbn [fst].
    rewrite foldl_snoc_map.
    assert (Hall : Forall well_addressed
              ((fun j => mk_gDate j D t "" (Image m)) <$> seqZ 1 12)).
    { apply Forall_fmap, Forall_forall. intros j Hj.
      apply elem_of_seqZ in Hj. left. repeat split; cbn; lia. }
    intros [= <-]. apply Forall_app. split; [done | exact Hall].
  - unfold readConfigurationfile_entry. subst s.
    rewrite Hno. change (negb (-1 =? -1)) with false. cbn iota.
    rewrite Ht. cbn [mbind outcome_bind].
    intros [= <-]. apply Forall_app. split; [done |].
    constructor; [| done]. right. by repeat split.
Qed.

(** C6. When the file cannot be opened or cannot be read, the expander
    returns the empty sequence, with no error; when the content is read and
    the XML does not parse, the run ends fatally. *)
Theorem readConfigurationfile_failures (filename : string) :
  (os_file filename = OpenFails \/ os_file filename = ReadFails ->
   readConfigurationfile filename = Ret []) /\
  (forall data err,
      os_file filename = Contents data -> xml_Unmarshal data = inl err ->
      exists msg, readConfigurationfile filename = Fatal msg).
Proof.
  unfold readConfigurationfile. split.
  - by intros [-> | ->].
  - intros data err -> ->. eauto.
Qed.

(** The loop body of the weekday names. *)
Lemma getLocalizedWeekdayNames_day_spec (conv : string -> string)
    (locale : string) (cutoff : Z) (wdnames : list string) (i : Z) :
  converts conv -> 0 <= i -> (Z.to_nat i < length wdnames)%nat ->
  getLocalizedWeekdayNames_day locale cutoff wdnames i =
  if (0 <? cutoff)
     && (Z.of_nat (String.length (weekday_name locale conv i)) <? cutoff)
  then Panic "slice bounds out of range"
  else Ret (<[Z.to_nat i := cut_name cutoff (weekday_name locale conv i)]>
              wdnames).
Proof.
  intros Hconv Hi Hlen. unfold getLocalizedWeekdayNames_day.
  rewrite Hconv. cbn [mbind outcome_bind]. fold (weekday_name locale conv i).
  unfold cut_name. destruct (0 <? cutoff) eqn:Ecut; [| done].
  unfold index. rewrite list_lookup_insert_eq by done.
  cbn [mbind outcome_bind andb]. unfold GoStd.slice_to.
  destruct (cutoff <? 0) eqn:Eneg; [lia |]. cbn [orb].
  destruct (Z.of_nat _ <? cutoff); cbn [mbind outcome_bind]; [done |].
  by rewrite list_insert_insert_eq.
Qed.

Lemma getLocalizedWeekdayNames_loop (conv : string -> string)
    (locale : string) (cutoff : Z) (l : list Z) (wdnames : list string) :
  converts conv ->
  Forall (fun i => 0 <= i /\ (Z.to_nat i < length wdnames)%nat) l ->
  for_range (getLocalizedWeekdayNames_day locale cutoff) wdnames l =
  if (0 <? cutoff)
     && existsb (fun i => Z.of_nat (String.length (weekday_name locale conv i))
                            <? cutoff) l
  then Panic "slice bounds out of range"
  else Ret (foldl (fun wd i =>
                     <[Z.to_nat i :=
                         cut_name cutoff (weekday_name locale conv i)]> wd)
                  wdnames l).
Proof.
  intros Hconv. revert wdnames.
  induction l as [|i l IH]; intros wdnames Hl.
  - cbn. by rewrite andb_false_r.
  - apply Forall_cons in Hl as [[Hi Hlen] Hl].
    cbn [for_range existsb foldl].
    rewrite (getLocalizedWeekdayNames_day_spec conv) by done.
    destruct (0 <? cutoff) eqn:Ecut; cbn [andb].
    + destruct (Z.of_nat _ <? cutoff) eqn:Eshort;
        cbn [orb mbind outcome_bind]; [done |].
      rewrite IH; [done |].
      eapply Forall_impl; [exact Hl |]. intros j [Hj Hjl].
      by rewrite length_insert.
    + cbn [mbind outcome_bind]. rewrite IH; [done |].
      eapply Forall_impl; [exact Hl |]. intros j [Hj Hjl].
      by rewrite length_insert.
Qed.

Lemma seqZ_0_7_in_array :
  Forall (fun i => 0 <= i /\ (Z.to_nat i < length (replicate 8 ""))%nat)
         (seqZ 0 7).
Proof. apply Forall_forall. intros i Hi%elem_of_seqZ. cbn. lia. Qed.

(** C7, as amended. For every locale and cutoff for which the call returns,
    the result is an array of 8 strings: the indices 0 to 6 hold the
    converted name of the weekday of 2013-01-05 plus the index, cut to
    [cutoff] bytes when [cutoff > 0], and index 7 is the empty string. The
    call returns whenever no name is shorter than a positive cutoff. *)
Theorem getLocalizedWeekdayNames_layout (conv : string -> string)
    (locale : string) (cutoff : Z) :
  converts conv ->
  (0 < cutoff -> forall i, 0 <= i < 7 ->
     cutoff <= Z.of_nat (String.length (weekday_name locale conv i))) ->
  getLocalizedWeekdayNames locale cutoff =
  Ret (((fun i => cut_name cutoff (weekday_name locale conv i))
          <$> [0; 1; 2; 3; 4; 5; 6]) ++ [""]).
Proof.
  intros Hconv Hlong. unfold getLocalizedWeekdayNames.
  rewrite (getLocalizedWeekdayNames_loop conv)
    by (done || apply seqZ_0_7_in_array).
  destruct (0 <? cutoff) eqn:Ecut; cbn [andb]; [| done].
  destruct (existsb _ _) eqn:Eex; [| done].
  apply existsb_exists in Eex as (i & Hi & Hshort).
  apply list_elem_of_In, elem_of_seqZ in Hi.
  specialize (Hlong ltac:(lia) i ltac:(lia)). lia.
Qed.

(** C10. The cut [wdnames[i][0:cutoff]] is made without comparing [cutoff]
    with the length of the name: a positive cutoff beyond the byte length of
    one of the seven names makes the call panic, and for every locale there
    is such a cutoff. *)
Theorem getLocalizedWeekdayNames_cutoff_panics (conv : string -> string)
    (locale : string) :
  converts conv ->
  (forall cutoff i,
      0 < cutoff -> 0 <= i < 7 ->
      Z.of_nat (String.length (weekday_name locale conv i)) < cutoff ->
      getLocalizedWeekdayNames locale cutoff
      = Panic "slice bounds out of range") /\
  (exists cutoff,
      0 < cutoff /\
      getLocalizedWeekdayNames locale cutoff
      = Panic "slice bounds out of range").
Proof.
  intros Hconv.
  assert (Hpanic : forall cutoff i,
      0 < cutoff -> 0 <= i < 7 ->
      Z.of_nat (String.length (weekday_name locale conv i)) < cutoff ->
      getLocalizedWeekdayNames locale cutoff
      = Panic "slice bounds out of range").
  { intros cutoff i Hcut Hi Hshort. unfold getLocalizedWeekdayNames.
    rewrite (getLocalizedWeekdayNames_loop conv)
      by (done || apply seqZ_0_7_in_array).
    destruct (0 <? cutoff) eqn:Ecut; [| lia]. cbn [andb].
    destruct (existsb _ _) eqn:Eex; [done |].
    assert (Hex : existsb
              (fun i => Z.of_nat (String.length (weekday_name locale conv i))
                          <? cutoff) (seqZ 0 7) = true).
    { apply existsb_exists. exists i. split.
      - apply list_elem_of_In, elem_of_seqZ. lia.
      - lia. }
    congruence. }
  split; [exact Hpanic |].
  exists (Z.of_nat (String.length (weekday_name locale conv 0)) + 1).
  split; [lia |]. apply (Hpanic _ 0); lia.
Qed.

End EventFacts.

(** ** The theorems at the sample environment *)

Lemma sample_converts : @converts Sample.env id.
Proof. intros s. reflexivity. Defined.

Lemma readICSfile_returns_what_was_appended_witness :
  @converts Sample.env id /\
  Forall (fun e => valid_date (GetStart e))
         (@ics_events Sample.env "calendar.ics") /\
  @readICSfile Sample.env "calendar.ics" 2024 0 = Ret [] /\
  @readICSfile Sample.env "calendar.ics" 2024 2 =
  Ret [mk_gDate 1 1 "New Year" "" ""].
Proof.
  assert (Hvalid : Forall (fun e => valid_date (GetStart e))
                     (@ics_events Sample.env "calendar.ics")).
  { repeat constructor; cbn; lia. }
  split; [exact sample_converts |]. split; [exact Hvalid |].
  split.
  - exact (@readICSfile_returns_what_was_appended Sample.env id
             "calendar.ics" 2024 0 sample_converts Hvalid).
  - exact (@readICSfile_returns_what_was_appended Sample.env id
             "calendar.ics" 2024 2 sample_converts Hvalid).
Defined.

Lemma readConfigurationfile_every_month_witness :
  let m := {| Date := "*/15"; Text := "Rent"; Image := "" |} in
  @converts Sample.env id /\ 1 <= 15 <= 31 /\
  Date m = "*/" +:+ GoStd.numeral 0 15 /\
  @readConfigurationfile Sample.env "events.xml" =
  Ret ((fun j => mk_gDate j 15 "Rent" "" "")
         <$> [1; 2; 3; 4; 5; 6; 7; 8; 9; 10; 11; 12]).
Proof.
  intros m.
  assert (HD : 1 <= 15 <= 31) by lia.
  assert (HDate : Date m = "*/" +:+ GoStd.numeral 0 15) by reflexivity.
  split; [exact sample_converts |]. split; [exact HD |].
  split; [exact HDate |].
  exact (proj2 (@readConfigurationfile_every_month Sample.env id m 15 0
                  sample_converts HD HDate)
               "events.xml" Sample.events_xml eq_refl eq_refl).
Defined.

(** C5 does not hold as stated: the entry [13/45] of a configured file is
    expanded to a record with month 13 and day 45, which is neither
    date-addressed nor weekday-addressed. *)
Lemma readConfigurationfile_month_13 :
  @readConfigurationfile Sample.env "fair.xml"
  = Ret [mk_gDate 13 45 "Fair" "" ""] /\
  ~ well_addressed (mk_gDate 13 45 "Fair" "" "").
Proof.
  split; [reflexivity |].
  intros [(Hm & _) | (Hm & _)]; cbn in Hm; lia.
Qed.

(** The other forms of [Date], at the sample environment. *)

Example expand_month_day :
  @readConfigurationfile_entry Sample.env []
    {| Date := "3/7"; Text := "Anna"; Image := "anna.jpg" |}
  = Ret [mk_gDate 3 7 "Anna" "" "anna.jpg"].
Proof. reflexivity. Qed.

Example expand_weekday :
  @readConfigurationfile_entry Sample.env []
    {| Date := "Monday"; Text := "Gym"; Image := "" |}
  = Ret [mk_gDate 0 0 "Gym" "Monday" ""].
Proof. reflexivity. Qed.

Example expand_no_numbers :
  @readConfigurationfile_entry Sample.env []
    {| Date := "/"; Text := "Lost"; Image := "" |}
  = Ret [mk_gDate 0 0 "Lost" "" ""].
Proof. reflexivity. Qed.

Example expand_empty_date :
  @readConfigurationfile_entry Sample.env []
    {| Date := ""; Text := "Lost"; Image := "" |}
  = Ret [mk_gDate 0 0 "Lost" "" ""].
Proof. reflexivity. Qed.

Lemma readConfigurationfile_failures_witness :
  @readConfigurationfile Sample.env "missing.xml" = Ret [] /\
  @readConfigurationfile Sample.env "locked.xml" = Ret [] /\
  exists msg, @readConfigurationfile Sample.env "broken.xml" = Fatal msg.
Proof.
  split; [| split].
  - apply (@readConfigurationfile_failures Sample.env "missing.xml").
    left. reflexivity.
  - apply (@readConfigurationfile_failures Sample.env "locked.xml").
    right. reflexivity.
  - apply (proj2 (@readConfigurationfile_failures Sample.env "broken.xml")
             "<Gocal>" "XML syntax error"); reflexivity.
Defined.

(** C7 does not hold as stated: for the English names and no cutoff, index
    0 holds Saturday and index 7 is empty. *)
Lemma getLocalizedWeekdayNames_en_US :
  @getLocalizedWeekdayNames Sample.env "en_US" 0
  = Ret ["Saturday"; "Sunday"; "Monday"; "Tuesday"; "Wednesday"; "Thursday";
         "Friday"; ""] /\
  ["Saturday"; "Sunday"; "Monday"; "Tuesday"; "Wednesday"; "Thursday";
   "Friday"; ""] !! 0%nat <> Some "" /\
  ["Saturday"; "Sunday"; "Monday"; "Tuesday"; "Wednesday"; "Thursday";
   "Friday"; ""] !! 7%nat = Some "".
Proof. split; [reflexivity |]. split; [discriminate | reflexivity]. Qed.

Lemma sample_names_long (i : Z) :
  0 <= i < 7 ->
  3 <= Z.of_nat (String.length (@weekday_name Sample.env "en_US" id i)).
Proof.
  intros Hi.
  assert (Hc : i = 0 \/ i = 1 \/ i = 2 \/ i = 3 \/ i = 4 \/ i = 5 \/ i = 6)
    by lia.
  repeat destruct Hc as [-> | Hc]; try subst i; by vm_compute.
Defined.

Lemma getLocalizedWeekdayNames_layout_witness :
  @converts Sample.env id /\
  (0 < 3 -> forall i, 0 <= i < 7 ->
     3 <= Z.of_nat (String.length (@weekday_name Sample.env "en_US" id i))) /\
  @getLocalizedWeekdayNames Sample.env "en_US" 3
  = Ret ["Sat"; "Sun"; "Mon"; "Tue"; "Wed"; "Thu"; "Fri"; ""].
Proof.
  split; [exact sample_converts |].
  split; [intros _; exact sample_names_long |].
  exact (@getLocalizedWeekdayNames_layout Sample.env id "en_US" 3
           sample_converts (fun _ => sample_names_long)).
Defined.

Lemma getLocalizedWeekdayNames_cutoff_panics_witness :
  @converts Sample.env id /\
  @getLocalizedWeekdayNames Sample.env "en_US" 7
  = Panic "slice bounds out of range".
Proof.
  split; [exact sample_converts |].
  apply (proj1 (@getLocalizedWeekdayNames_cutoff_panics Sample.env id "en_US"
                  sample_converts) 7 1); [lia | lia | by vm_compute].
Defined.

(** * Moon phases *)

(** ** Maps built by a sequence of writes *)

Section Writes.
Context {K V : Type} `{Countable K}.

Lemma apply_writes_union (l : list (K * V)) (m : gmap K V) :
  apply_writes m l = list_to_map (reverse l) ∪ m.
Proof.
  unfold apply_writes. revert m.
  induction l as [|[k v] l IH]; intros m; cbn [foldl].
  - by rewrite reverse_nil, list_to_map_nil, (left_id_L ∅ (∪)).
  - rewrite IH, reverse_cons, list_to_map_app. cbn [fst snd list_to_map foldr].
    rewrite insert_empty, <- (assoc_L (∪)).
    by rewrite <- insert_union_singleton_l.
Qed.

Lemma apply_writes_lookup (l : list (K * V)) (m : gmap K V) (k : K) (v : V) :
  apply_writes m l !! k = Some v -> m !! k = Some v \/ (k, v) ∈ l.
Proof.
  unfold apply_writes. revert m.
  induction l as [|[k' v'] l IH]; intros m; cbn [foldl]; [by left |].
  intros [Hm | Hl]%IH.
  - cbn [fst snd] in Hm. apply lookup_insert_Some in Hm as [[-> ->] | [_ Hm]].
    + right. by left.
    + by left.
  - right. by right.
Qed.

Lemma apply_writes_written (l : list (K * V)) (m : gmap K V) (k : K) (v : V) :
  (k, v) ∈ l -> exists v', (k, v') ∈ l /\ apply_writes m l !! k = Some v'.
Proof.
  unfold apply_writes. revert m v.
  induction l as [|[k' v'] l IH]; intros m v Hin;
    [by apply elem_of_nil in Hin |].
  cbn [foldl fst snd].
  destruct (decide (k ∈ l.*1)) as [Hlater | Hnot].
  - apply list_elem_of_fmap in Hlater as ([k2 v2] & Hk & Hin2).
    cbn in Hk. subst k2.
    destruct (IH (<[k':=v']> m) v2 Hin2) as (v3 & Hin3 & Hl).
    exists v3. split; [by right | done].
  - apply elem_of_cons in Hin as [[= -> ->] | Hin].
    + exists v'. split; [by left |].
      fold (apply_writes (<[k':=v']> m) l). rewrite apply_writes_union.
      rewrite lookup_union_r.
      * apply lookup_insert_eq.
      * apply not_elem_of_list_to_map_1.
        rewrite fmap_reverse, elem_of_reverse. done.
    + exfalso. apply Hnot. apply list_elem_of_fmap. by exists (k, v).
Qed.

(** Writes to distinct keys can be made in any order. *)
Lemma apply_writes_permutation (l1 l2 : list (K * V)) (m : gmap K V) :
  NoDup (l1.*1) -> l1 ≡ₚ l2 -> apply_writes m l1 = apply_writes m l2.
Proof.
  intros Hnd Hperm. rewrite !apply_writes_union. f_equal.
  apply list_to_map_proper.
  - by rewrite fmap_reverse, reverse_Permutation.
  - by rewrite !reverse_Permutation.
Qed.

End Writes.

Section MoonFacts.
Context {float64 : Type} `{!Float64 float64, !Meeus float64}.

Implicit Types (range_order : Z -> list (string * (float64 -> float64))).

Lemma computeMoonphasesJ_inner (dy : float64) (es : list (string * (float64 -> float64)))
    (moonJ : gmap string string) :
  foldl (computeMoonphasesJ_entry dy) moonJ es =
  apply_writes moonJ ((fun e => (moonString (e.2 dy), e.1)) <$> es).
Proof.
  unfold apply_writes. revert moonJ.
  induction es as [|e es IH]; intros moonJ; [done |]. cbn [foldl fmap list_fmap].
  apply IH.
Qed.

(** The year-wide map is the map after the writes of the run. *)
Lemma computeMoonphasesJ_as_writes range_order (moonJ : gmap string string)
    (yr : Z) :
  computeMoonphasesJ range_order moonJ yr =
  apply_writes moonJ (computeMoonphasesJ_writes range_order yr).
Proof.
  unfold computeMoonphasesJ, computeMoonphasesJ_writes.
  generalize (seqZ 0 (daysInYear yr)). intros l. revert moonJ.
  induction l as [|i l IH]; intros moonJ; [done |].
  cbn [foldl]. rewrite bind_cons. unfold apply_writes at 1.
  rewrite foldl_app. fold (apply_writes moonJ).
  rewrite IH. f_equal. rewrite computeMoonphasesJ_inner.
  unfold apply_writes. f_equal.
Qed.

Lemma computeMoonphasesJ_writes_elem range_order (yr : Z) (key label : string) :
  (forall i, range_order i ≡ₚ moon_funcs) ->
  (key, label) ∈ computeMoonphasesJ_writes range_order yr <->
  exists i e, 0 <= i < daysInYear yr /\ e ∈ moon_funcs /\
              key = moonString (e.2 (decimalYear yr (i - 1))) /\ label = e.1.
Proof.
  intros Hperm. unfold computeMoonphasesJ_writes.
  rewrite list_elem_of_bind. split.
  - intros (i & Hin & Hi). apply list_elem_of_bind in Hin as (e & Hin & He).
    apply list_elem_of_singleton in Hin as [= -> ->].
    exists i, e. rewrite <- (Hperm i). apply elem_of_seqZ in Hi.
    repeat split; [lia | lia | done].
  - intros (i & e & Hi & He & -> & ->). exists i. split.
    + apply list_elem_of_bind. exists e. split; [by left |].
      by rewrite (Hperm i).
    + apply elem_of_seqZ. lia.
Qed.

Lemma moon_funcs_labels (e : string * (float64 -> float64)) :
  e ∈ moon_funcs -> e.1 ∈ ["Full"; "New"; "First"; "Last"].
Proof.
  unfold moon_funcs. rewrite !elem_of_cons.
  intros [-> | [-> | [-> | [-> | Hnil]]]]; cbn; rewrite ?elem_of_cons; auto.
  by apply elem_of_nil in Hnil.
Qed.

(** C1, as amended. For every year the year-wide computation visits the day
    indices 0 to 364 (0 to 365 in a Gregorian leap year) and writes, for each
    index and each of the four phase functions, the label of that function
    under the date of the phase it returns. So every entry it adds bears the
    label of a phase function that returned the date of its key at some day
    index: [Full] for [moonphase.Full], [New] for [moonphase.New], [First]
    for [moonphase.First], [Last] for [moonphase.Last]. Every date a phase
    function returns has an entry, whose label is that of a function that
    returned that date; it is the label of the function itself when no
    function of another label returns the same date. The map is not keyed by
    the days of the year. *)
Theorem computeMoonphasesJ_entries range_order (moonJ : gmap string string)
    (yr : Z) :
  (forall i, range_order i ≡ₚ moon_funcs) ->
  (forall key label,
      computeMoonphasesJ range_order moonJ yr !! key = Some label ->
      moonJ !! key = Some label \/
      exists phase i,
        (label, phase) ∈ [("Full", moonphase_Full); ("New", moonphase_New);
                          ("First", moonphase_First); ("Last", moonphase_Last)]
        /\ 0 <= i < (if LeapYearGregorian yr then 366 else 365)
        /\ key = moonString (phase (decimalYear yr (i - 1)))) /\
  (forall label phase i,
      (label, phase) ∈ [("Full", moonphase_Full); ("New", moonphase_New);
                        ("First", moonphase_First); ("Last", moonphase_Last)] ->
      0 <= i < (if LeapYearGregorian yr then 366 else 365) ->
      exists label' phase' i',
        (label', phase') ∈ [("Full", moonphase_Full); ("New", moonphase_New);
                            ("First", moonphase_First);
                            ("Last", moonphase_Last)]
        /\ 0 <= i' < (if LeapYearGregorian yr then 366 else 365)
        /\ moonString (phase' (decimalYear yr (i' - 1)))
           = moonString (phase (decimalYear yr (i - 1)))
        /\ computeMoonphasesJ range_order moonJ yr
             !! moonString (phase (decimalYear yr (i - 1))) = Some label') /\
  (forall label phase i,
      (label, phase) ∈ [("Full", moonphase_Full); ("New", moonphase_New);
                        ("First", moonphase_First); ("Last", moonphase_Last)] ->
      0 <= i < (if LeapYearGregorian yr then 366 else 365) ->
      (forall label' phase' i',
          (label', phase') ∈ [("Full", moonphase_Full);
                              ("New", moonphase_New);
                              ("First", moonphase_First);
                              ("Last", moonphase_Last)] ->
          0 <= i' < (if LeapYearGregorian yr then 366 else 365) ->
          moonString (phase' (decimalYear yr (i' - 1)))
          = moonString (phase (decimalYear yr (i - 1))) ->
          label' = label) ->
      computeMoonphasesJ range_order moonJ yr
        !! moonString (phase (decimalYear yr (i - 1))) = Some label).
Proof.
  intros Hperm. rewrite computeMoonphasesJ_as_writes.
  change [("Full", moonphase_Full); ("New", moonphase_New);
          ("First", moonphase_First); ("Last", moonphase_Last)]
    with moon_funcs.
  change (if LeapYearGregorian yr then 366 else 365) with (daysInYear yr).
  assert (Hwritten : forall label phase i,
            (label, phase) ∈ moon_funcs -> 0 <= i < daysInYear yr ->
            exists label' phase' i',
              (label', phase') ∈ moon_funcs /\ 0 <= i' < daysInYear yr /\
              moonString (phase' (decimalYear yr (i' - 1)))
              = moonString (phase (decimalYear yr (i - 1))) /\
              apply_writes moonJ (computeMoonphasesJ_writes range_order yr)
                !! moonString (phase (decimalYear yr (i - 1))) = Some label').
  { intros label phase i Hin Hi.
    destruct (apply_writes_written
                (computeMoonphasesJ_writes range_order yr) moonJ
                (moonString (phase (decimalYear yr (i - 1)))) label)
      as (label' & Hin' & Hlook).
    { apply computeMoonphasesJ_writes_elem; [done |].
      by exists i, (label, phase). }
    apply computeMoonphasesJ_writes_elem in Hin'
      as (i' & [l' phase'] & Hi' & He' & Hkey & ->); [| done].
    cbn [fst snd] in *. by exists l', phase', i'. }
  split; [| split].
  - intros key label [Hm | Hw]%apply_writes_lookup; [by left | right].
    apply computeMoonphasesJ_writes_elem in Hw
      as (i & [l phase] & Hi & He & -> & ->); [| done].
    cbn [fst snd]. by exists phase, i.
  - exact Hwritten.
  - intros label phase i Hin Hi Hown.
    destruct (Hwritten label phase i Hin Hi)
      as (label' & phase' & i' & Hin' & Hi' & Hkey & Hlook).
    by rewrite <- (Hown label' phase' i' Hin' Hi' Hkey).
Qed.

(** The year-wide map does not depend on the order in which the range
    statement visits the four phase functions, provided that at each day
    index the four functions give four different dates. *)
Lemma computeMoonphasesJ_any_order range_order1 range_order2
    (moonJ : gmap string string) (yr : Z) :
  (forall i, range_order1 i ≡ₚ moon_funcs) ->
  (forall i, range_order2 i ≡ₚ moon_funcs) ->
  (forall i, 0 <= i < daysInYear yr -> NoDup (phase_keys yr i)) ->
  computeMoonphasesJ range_order1 moonJ yr
  = computeMoonphasesJ range_order2 moonJ yr.
Proof.
  intros Hperm1 Hperm2 Hdistinct. unfold computeMoonphasesJ.
  assert (Hl : Forall (fun i => 0 <= i < daysInYear yr)
                 (seqZ 0 (daysInYear yr))).
  { apply Forall_forall. intros i Hi%elem_of_seqZ. lia. }
  revert Hl. generalize (seqZ 0 (daysInYear yr)). intros l. revert moonJ.
  induction l as [|i l IH]; intros moonJ Hl; [done |].
  apply Forall_cons in Hl as [Hi Hl]. cbn [foldl].
  rewrite !computeMoonphasesJ_inner.
  rewrite (apply_writes_permutation _
             ((fun e => (moonString (e.2 (decimalYear yr (i - 1))), e.1))
                <$> range_order2 i)).
  - by apply IH.
  - rewrite <- list_fmap_compose, (Hperm1 i). exact (Hdistinct i Hi).
  - by rewrite (Hperm1 i), (Hperm2 i).
Qed.

(** ** The month-scoped map *)

(** One block writes at key [i], when its test passes, and nowhere else. *)
Lemma computeMoonphases_phase_lookup (phase : float64 -> float64)
    (label : string) (announce : option string) (da mo yr i k : Z)
    (st : moon_state) :
  (computeMoonphases_phase phase label announce mo yr i
     (decimalYear yr (DayOfYearGregorian yr mo (da + i) - 1)) st).1 !! k =
  if phase_falls_on phase da mo yr i && bool_decide (k = i)
  then Some label else st.1 !! k.
Proof.
  unfold computeMoonphases_phase, phase_falls_on.
  destruct (JDToCalendar _) as [[y m] d].
  destruct ((y =? yr) && (m =? mo) && (int_of_float64 d =? i)) eqn:E;
    [| done].
  cbn [fst andb].
  apply andb_prop in E as [_ Hd%Z.eqb_eq]. rewrite Hd.
  case_bool_decide as Hk.
  - subst k. apply lookup_insert_eq.
  - by apply lookup_insert_ne.
Qed.

Lemma computeMoonphases_day_lookup (da mo yr i k : Z) (st : moon_state) :
  (computeMoonphases_day da mo yr st i).1 !! k =
  if bool_decide (k = i) then last_phase_on da mo yr i (st.1 !! k)
  else st.1 !! k.
Proof.
  unfold computeMoonphases_day, last_phase_on.
  rewrite !(computeMoonphases_phase_lookup _ _ _ da).
  case_bool_decide; [| by rewrite !andb_false_r].
  rewrite !andb_true_r. done.
Qed.

Lemma computeMoonphases_fold_lookup (da mo yr k : Z) (l : list Z)
    (st : moon_state) :
  NoDup l ->
  (foldl (computeMoonphases_day da mo yr) st l).1 !! k =
  if bool_decide (k ∈ l) then last_phase_on da mo yr k (st.1 !! k)
  else st.1 !! k.
Proof.
  revert st. induction l as [|i l IH]; intros st Hnd; [done |].
  apply NoDup_cons in Hnd as [Hi Hnd]. cbn [foldl].
  rewrite IH by done. rewrite computeMoonphases_day_lookup.
  destruct (decide (k = i)) as [-> | Hne].
  - rewrite (bool_decide_eq_false_2 (i ∈ l)) by done.
    rewrite bool_decide_eq_true_2 by done.
    rewrite bool_decide_eq_true_2 by (by left). done.
  - rewrite (bool_decide_eq_false_2 (k = i)) by done.
    destruct (decide (k ∈ l)) as [Hin | Hnin].
    + rewrite !bool_decide_eq_true_2; [done | by right | done].
    + rewrite !bool_decide_eq_false_2; [done | | done].
      rewrite elem_of_cons. tauto.
Qed.

(** What a key holds in the end. *)
Lemma computeMoonphases_lookup (moon : gmap Z string) (da mo yr k : Z) :
  (computeMoonphases moon da mo yr).1 !! k =
  if bool_decide (0 <= k < 32) then last_phase_on da mo yr k (moon !! k)
  else moon !! k.
Proof.
  unfold computeMoonphases.
  rewrite computeMoonphases_fold_lookup by apply NoDup_seqZ. cbn [fst].
  destruct (decide (0 <= k < 32)) as [Hk | Hk].
  - rewrite !bool_decide_eq_true_2; [done | done |]. apply elem_of_seqZ. lia.
  - rewrite !bool_decide_eq_false_2; [done | done |].
    rewrite elem_of_seqZ. lia.
Qed.

(** C4. At each offset the four phases are tested in the order New, Full,
    First, Last and each one that passes writes its label at the key of the
    offset, so the key holds the label of the last one that passed: Last if
    the test of Last passed, whatever the other three did; else First, else
    Full, else New; and what it held before if none passed or the key is no
    offset. *)
Theorem computeMoonphases_last_wins (moon : gmap Z string) (da mo yr k : Z) :
  let result := (computeMoonphases moon da mo yr).1 in
  (0 <= k < 32 -> phase_falls_on moonphase_Last da mo yr k = true ->
   result !! k = Some "Last") /\
  (0 <= k < 32 -> phase_falls_on moonphase_Last da mo yr k = false ->
   phase_falls_on moonphase_First da mo yr k = true ->
   result !! k = Some "First") /\
  (0 <= k < 32 -> phase_falls_on moonphase_Last da mo yr k = false ->
   phase_falls_on moonphase_First da mo yr k = false ->
   phase_falls_on moonphase_Full da mo yr k = true ->
   result !! k = Some "Full") /\
  (0 <= k < 32 -> phase_falls_on moonphase_Last da mo yr k = false ->
   phase_falls_on moonphase_First da mo yr k = false ->
   phase_falls_on moonphase_Full da mo yr k = false ->
   phase_falls_on moonphase_New da mo yr k = true ->
   result !! k = Some "New") /\
  (phase_falls_on moonphase_Last da mo yr k = false ->
   phase_falls_on moonphase_First da mo yr k = false ->
   phase_falls_on moonphase_Full da mo yr k = false ->
   phase_falls_on moonphase_New da mo yr k = false ->
   result !! k = moon !! k) /\
  (~ 0 <= k < 32 -> result !! k = moon !! k).
Proof.
  intros result. unfold result. rewrite computeMoonphases_lookup.
  unfold last_phase_on.
  repeat split; intros; repeat case_bool_decide; try lia;
    repeat match goal with
           | Hp : phase_falls_on _ _ _ _ _ = _ |- _ => rewrite Hp; clear Hp
           end; done.
Qed.



End MoonFacts.

(** ** The reference almanac keeps the promise of package julian *)



(** ** The theorems at the reference almanac *)

Section AtAlmanac.
#[local] Existing Instances Almanac.float64_Q Almanac.meeus_Q.

(** C1 does not hold as stated: 2024 is a leap year, and the year-wide map
    of 2024 has 53 entries, none of them for the first of January. *)
Lemma year_map_2024_not_every_day :
  daysInYear 2024 = 366 /\
  Almanac.year_map 2024 !! "2024-01-01" = None /\
  size (Almanac.year_map 2024) = 53%nat.
Proof. by vm_compute. Qed.

Lemma literal_order :
  forall i : Z, (fun _ : Z => moon_funcs) i ≡ₚ moon_funcs.
Proof. intros i. reflexivity. Defined.

Lemma computeMoonphasesJ_entries_witness :
  (forall i : Z, (fun _ : Z => moon_funcs) i ≡ₚ moon_funcs) /\
  Almanac.year_map 2024 !! "2024-01-11" = Some "New" /\
  exists phase i,
    ("New", phase) ∈ [("Full", moonphase_Full); ("New", moonphase_New);
                      ("First", moonphase_First); ("Last", moonphase_Last)]
    /\ 0 <= i < (if LeapYearGregorian 2024 then 366 else 365)
    /\ "2024-01-11" = moonString (phase (decimalYear 2024 (i - 1))).
Proof.
  assert (Hlook : Almanac.year_map 2024 !! "2024-01-11" = Some "New")
    by (by vm_compute).
  split; [exact literal_order |]. split; [exact Hlook |].
  destruct (proj1
    (@computeMoonphasesJ_entries Q Almanac.float64_Q Almanac.meeus_Q
       (fun _ => moon_funcs) ∅ 2024 literal_order) "2024-01-11" "New" Hlook)
    as [Hempty | Hwritten]; [| exact Hwritten].
  by rewrite lookup_empty in Hempty.
Defined.

Lemma almanac_2024_distinct_dates (i : Z) :
  0 <= i < daysInYear 2024 -> NoDup (phase_keys 2024 i).
Proof.
  intros Hi.
  assert (Hall : Forall (fun i => NoDup (phase_keys 2024 i)) (seqZ 0 366)).
  { apply (bool_decide_unpack _). by vm_compute. }
  apply (proj1 (Forall_forall _ _) Hall). apply elem_of_seqZ.
  change (daysInYear 2024) with 366 in Hi. lia.
Defined.

(** The year-wide map of 2024 at the reference almanac is the same in
    whatever order the range statement visits the phase functions. *)
Lemma year_map_2024_any_order range_order :
  (forall i, range_order i ≡ₚ moon_funcs) ->
  computeMoonphasesJ range_order ∅ 2024 = Almanac.year_map 2024.
Proof.
  intros Hperm. unfold Almanac.year_map.
  apply computeMoonphasesJ_any_order;
    [exact Hperm | exact literal_order | exact almanac_2024_distinct_dates].
Qed.


End AtAlmanac.

(** ** The theorems at the library whose phases coincide *)

Section AtCoincide.
#[local] Existing Instances Coincide.float64_Z Coincide.meeus_flat.

Lemma computeMoonphases_last_wins_witness :
  phase_falls_on moonphase_New 1 1 2024 11 = true /\
  phase_falls_on moonphase_Last 1 1 2024 11 = true /\
  (computeMoonphases ∅ 1 1 2024).1 !! 11 = Some "Last".
Proof.
  split; [reflexivity |]. split; [reflexivity |].
  apply (@computeMoonphases_last_wins Z Coincide.float64_Z
           Coincide.meeus_flat ∅ 1 1 2024 11); [lia | reflexivity].
Defined.

End AtCoincide.

(** * Further facts about the standard library functions *)

Section GoStdMore.
Import GoStd.

Lemma ParseUint_go_range (s : string) (n : Z) :
  0 <= n <= maxVal32 -> 0 <= (ParseUint_go n s).1 <= maxVal32.
Proof.
  revert n. induction s as [|c s IH]; intros n Hn; cbn [ParseUint_go]; [done |].
  destruct (is_digit c) eqn:Hc; [| by cbn].
  destruct (maxVal32 <? n * 10 + digit_val c) eqn:E; [by cbn |].
  apply IH. unfold is_digit in Hc.
  apply andb_prop in Hc as [Hlo%Z.leb_le Hhi%Z.leb_le].
  apply Z.ltb_ge in E. unfold digit_val in *. lia.
Qed.

(** Whatever it is given, [ParseInt] with 32 bits returns a value of 32
    bits. *)
Lemma ParseInt_int32 (s : string) : int32 (ParseInt s).1.
Proof.
  assert (Hun : forall neg t, int32 (ParseInt_unsigned neg t).1).
  { intros neg t. unfold ParseInt_unsigned.
    assert (Hr : 0 <= (ParseUint t).1 <= maxVal32).
    { unfold ParseUint. destruct t; [by cbn |]. by apply ParseUint_go_range. }
    destruct (ParseUint t) as [un [[] |]]; cbn [fst] in *; unfold int32;
      try (cbn; lia);
      destruct neg; cbn [negb andb];
      repeat match goal with
             | |- context [if ?b then _ else _] => destruct b eqn:?
             end; cbn [fst]; lia. }
  unfold ParseInt. destruct s as [|c s]; [by cbn |].
  destruct (Ascii.eqb c "+"); [apply Hun |].
  destruct (Ascii.eqb c "-"); apply Hun.
Qed.

Lemma ParseUint_go_digits_any (fuel : nat) (n : Z) :
  0 <= n < 10 ^ Z.of_nat fuel ->
  ParseUint_go 0 (digits_go fuel n) =
  if n <=? maxVal32 then (n, None) else (maxVal32, Some ErrRange).
Proof.
  revert n. induction fuel as [|f IH]; intros n Hn.
  - cbn in *. by replace n with 0 by lia.
  - cbn [digits_go]. rewrite ParseUint_go_app.
    assert (Hd : 0 <= n mod 10 < 10) by (apply Z.mod_pos_bound; lia).
    destruct (digit_char_spec _ Hd) as [Hdig Hval].
    pose proof (Z.div_mod n 10 ltac:(lia)) as Hdm.
    assert (Hstep : forall v, v * 10 + n mod 10 = n ->
              ParseUint_go v (String (digit_char (n mod 10)) "") =
              if n <=? maxVal32 then (n, None) else (maxVal32, Some ErrRange)).
    { intros v Hv. cbn [ParseUint_go]. rewrite Hdig, Hval, Hv.
      destruct (maxVal32 <? n) eqn:E, (n <=? maxVal32) eqn:E'; try lia; done. }
    destruct (n <? 10) eqn:E10.
    + cbn [ParseUint_go]. apply Hstep. rewrite Z.mod_small; lia.
    + rewrite IH.
      * destruct (n / 10 <=? maxVal32) eqn:Eq; [apply Hstep; lia |].
        destruct (n <=? maxVal32) eqn:E'; [lia | done].
      * rewrite Nat2Z.inj_succ, Z.pow_succ_r in Hn by lia.
        split; [apply Z.div_pos; lia | apply Z.div_lt_upper_bound; lia].
Qed.

Lemma ParseUint_numeral_any (w : nat) (n : Z) :
  0 <= n ->
  ParseUint (numeral w n) =
  if n <=? maxVal32 then (n, None) else (maxVal32, Some ErrRange).
Proof.
  intros Hn. unfold ParseUint.
  destruct (numeral w n) eqn:E; [by apply numeral_nonempty in E |].
  rewrite <- E. unfold numeral, pad0. rewrite ParseUint_go_zeros.
  apply ParseUint_go_digits_any.
  split; [lia | apply digits_fuel_enough; lia].
Qed.

(** What [Time.Format] prints for an integer is read back by [ParseInt] as
    the nearest value of 32 bits. *)
Lemma ParseInt_appendInt_clamp (x : Z) (w : nat) :
  (ParseInt (appendInt x w)).1 = clamp32 x.
Proof.
  unfold appendInt, clamp32.
  destruct (x <? 0) eqn:Eneg.
  - rewrite app_cons, app_nil. cbn [ParseInt].
    replace (Ascii.eqb "-" "+") with false by done.
    replace (Ascii.eqb "-" "-") with true by done.
    unfold ParseInt_unsigned.
    rewrite ParseUint_numeral_any by lia. unfold maxVal32.
    destruct (- x <=? 2 ^ 32 - 1) eqn:E1; cbn [negb andb].
    + destruct (2 ^ 31 <? - x) eqn:E2; cbn [fst]; lia.
    + destruct (2 ^ 31 <? 2 ^ 32 - 1) eqn:E2; cbn [fst]; lia.
  - pose proof (all_digits_numeral w x ltac:(lia)) as Hall.
    pose proof (ParseUint_numeral_any w x ltac:(lia)) as Hp.
    destruct (numeral w x) as [|c s] eqn:E; [by apply numeral_nonempty in E |].
    cbn [all_digits] in Hall. apply andb_prop in Hall as [Hc _].
    destruct (digit_not_sign _ Hc) as (Hplus & Hminus & _).
    cbn [ParseInt]. rewrite Hplus, Hminus.
    unfold ParseInt_unsigned. rewrite Hp. unfold maxVal32.
    destruct (x <=? 2 ^ 32 - 1) eqn:E1; cbn [negb andb].
    + destruct (2 ^ 31 <=? x) eqn:E2; cbn [fst]; lia.
    + destruct (2 ^ 31 <=? 2 ^ 32 - 1) eqn:E2; cbn [fst]; lia.
Qed.

End GoStdMore.

(** * Further properties of the importer, the expander and the names *)

Section SplitFacts.
Import GoStd.

Lemma Split_nonempty (s : string) (c : ascii) :
  exists a rest, Split s c = a :: rest.
Proof.
  induction s as [|b s (a & rest & IH)]; cbn [Split]; [by eauto |].
  destruct (Ascii.eqb b c); [by eauto |]. rewrite IH. by eauto.
Qed.

(** A string that holds the separator splits into two parts at least. *)
Lemma Split_two (s : string) (c : ascii) :
  Index s c <> -1 -> exists a b rest, Split s c = a :: b :: rest.
Proof.
  induction s as [|b s IH]; cbn [Index Split]; [done |].
  destruct (Ascii.eqb b c).
  - intros _. destruct (Split_nonempty s c) as (a & rest & ->). by eauto.
  - destruct (Index s c =? -1) eqn:E; [done |]. intros _.
    destruct IH as (a & b' & rest & ->); [lia |]. by eauto.
Qed.

(** The first part is a star only for a string that begins with a star and
    a slash. *)
Lemma Split_head_star (s : string) :
  Index s "/" <> -1 ->
  forall a rest, Split s "/" = a :: rest ->
  bool_decide (a = "*") = has_prefix "*/" s.
Proof.
  intros Hs a rest Hsplit.
  destruct s as [|c s]; [done |]. cbn [Split] in Hsplit.
  destruct (Ascii.eqb c "/") eqn:Ec.
  { injection Hsplit as <- _. apply Ascii.eqb_eq in Ec as ->. done. }
  destruct (Split_nonempty s "/") as (h & t & Hst). rewrite Hst in Hsplit.
  injection Hsplit as <- _.
  destruct s as [|c2 s].
  { cbn in Hs. rewrite Ec in Hs. done. }
  cbn [Split] in Hst. cbn [has_prefix].
  destruct (Ascii.eqb c2 "/") eqn:Ec2.
  - injection Hst as <- _. apply Ascii.eqb_eq in Ec2 as ->.
    rewrite Ascii.eqb_refl, !andb_true_r.
    rewrite (Ascii.eqb_sym "*" c).
    destruct (Ascii.eqb c "*") eqn:E.
    + apply Ascii.eqb_eq in E as ->. by apply bool_decide_eq_true_2.
    + apply bool_decide_eq_false_2. intros [= ->]. by rewrite Ascii.eqb_refl in E.
  - destruct (Split_nonempty s "/") as (h2 & t2 & Hst2). rewrite Hst2 in Hst.
    injection Hst as <- _.
    rewrite (Ascii.eqb_sym "/" c2), Ec2. cbn [andb]. rewrite andb_false_r.
    by apply bool_decide_eq_false_2.
Qed.

End SplitFacts.

Section EventMore.
Context `{Env}.

(** The conversion is available for every string or for none. *)
Lemma convertCP_cases :
  (exists conv, converts conv) \/ (exists err, forall s, convertCP s = Fatal err).
Proof.
  unfold converts, convertCP.
  destruct (charset_NewWriter "windows-1252") as [err | w].
  - right. by exists err.
  - left. by exists (fun s => w (fmt_format s)).
Qed.

Lemma for_range_no_panic {A B : Type} (body : B -> A -> outcome B)
    (l : list A) (acc : B) (msg : string) :
  (forall acc x msg, body acc x <> Panic msg) ->
  for_range body acc l <> Panic msg.
Proof.
  intros Hbody. revert acc. induction l as [|x l IH]; intros acc; [done |].
  cbn [for_range]. destruct (body acc x) as [acc' | e | e] eqn:E; cbn.
  - apply IH.
  - done.
  - by apply Hbody in E.
Qed.

Lemma readConfigurationfile_entry_no_panic (eL : list gDate) (m : Gocaldate)
    (msg : string) :
  readConfigurationfile_entry eL m <> Panic msg.
Proof.
  unfold readConfigurationfile_entry, convertCP.
  destruct (GoStd.Index (Date m) "/" =? -1) eqn:E; cbn [negb].
  - destruct (charset_NewWriter "windows-1252"); by cbn.
  - destruct (Split_two (Date m) "/") as (a & b & rest & ->); [lia |].
    destruct (charset_NewWriter "windows-1252"); cbn; [done |].
    destruct (decide (a = "*")); by cbn.
Qed.

(** X1. The expander never panics: the second part of the split [Date] is
    read only when [Date] holds a slash, and then it exists. *)
Theorem readConfigurationfile_no_panic (filename msg : string) :
  readConfigurationfile filename <> Panic msg.
Proof.
  unfold readConfigurationfile.
  destruct (os_file filename) as [| | data]; [done | done |].
  destruct (xml_Unmarshal data) as [err | v]; [done |].
  apply for_range_no_panic. intros acc m e.
  apply readConfigurationfile_entry_no_panic.
Qed.

(** What one entry adds, the conversion being available. *)
Lemma readConfigurationfile_entry_adds (conv : string -> string) :
  converts conv ->
  exists out : Gocaldate -> list gDate,
    (forall m, length (out m)
               = if has_prefix "*/" (Date m) then 12%nat else 1%nat) /\
    (forall eL m, readConfigurationfile_entry eL m = Ret (eL ++ out m)).
Proof.
  intros Hconv.
  exists (fun m =>
    if GoStd.Index (Date m) "/" =? -1 then
      [mk_gDate 0 0 (conv (Text m)) (Date m) (Image m)]
    else
      match GoStd.Split (Date m) "/" with
      | a :: b :: _ =>
          if decide (a = "*") then
            (fun j => mk_gDate j (GoStd.ParseInt b).1 (conv (Text m)) ""
                        (Image m)) <$> seqZ 1 12
          else [mk_gDate (GoStd.ParseInt a).1 (GoStd.ParseInt b).1
                  (conv (Text m)) "" (Image m)]
      | _ => []
      end).
  split.
  - intros m. destruct (GoStd.Index (Date m) "/" =? -1) eqn:E.
    + apply Z.eqb_eq in E.
      destruct (has_prefix "*/" (Date m)) eqn:Hp; [| done].
      destruct (Date m) as [|c1 [|c2 s]]; cbn [has_prefix] in Hp;
        [done | by rewrite andb_false_r in Hp |].
      apply andb_prop in Hp as [H1%Ascii.eqb_eq [H2%Ascii.eqb_eq _]%andb_prop].
      subst. done.
    + apply Z.eqb_neq in E.
      destruct (Split_two (Date m) "/" E) as (a & b & rest & Hsplit).
      rewrite Hsplit.
      rewrite <- (Split_head_star (Date m) E a (b :: rest) Hsplit).
      destruct (decide (a = "*")) as [-> | Hne].
      * by rewrite bool_decide_eq_true_2.
      * by rewrite bool_decide_eq_false_2.
  - intros eL m. unfold readConfigurationfile_entry.
    destruct (GoStd.Index (Date m) "/" =? -1) eqn:E; cbn [negb].
    + rewrite Hconv. done.
    + apply Z.eqb_neq in E.
      destruct (Split_two (Date m) "/" E) as (a & b & rest & ->).
      rewrite Hconv. cbn [mbind outcome_bind]. rewrite index_0.
      cbn [mbind outcome_bind].
      destruct (decide (a = "*")); rewrite index_1; cbn [mbind outcome_bind].
      * by rewrite foldl_snoc_map.
      * done.
Qed.

(** X2. With the conversion available, the expander returns for every file
    that is read and parsed: each entry adds its records after those of the
    entries before it, 12 for a [Date] that begins with a star and a slash
    and 1 for any other, whatever the other entries are. *)
Theorem readConfigurationfile_in_file_order (conv : string -> string) :
  converts conv ->
  exists out : Gocaldate -> list gDate,
    (forall m, length (out m)
               = if has_prefix "*/" (Date m) then 12%nat else 1%nat) /\
    (forall filename data v,
        os_file filename = Contents data -> xml_Unmarshal data = inr v ->
        readConfigurationfile filename = Ret (store_Gocaldate v ≫= out)).
Proof.
  intros Hconv.
  destruct (readConfigurationfile_entry_adds conv Hconv) as (out & Hlen & Hadd).
  exists out. split; [exact Hlen |].
  intros filename data v Hfile Hxml. unfold readConfigurationfile.
  rewrite Hfile, Hxml.
  rewrite (for_range_appends _ out); [done |]. intros acc m _. apply Hadd.
Qed.

(** X3. An entry whose [Date] is [M/D], the numbers in decimal, adds exactly
    one record, with month [M] and day [D]; what follows a second slash is
    not read. *)
Theorem readConfigurationfile_entry_one_date (conv : string -> string)
    (eL : list gDate) (m : Gocaldate) (M D : Z) (wM wD : nat)
    (tail : string) :
  converts conv -> 0 <= M <= 2 ^ 31 - 1 -> 0 <= D <= 2 ^ 31 - 1 ->
  tail = "" \/ (exists rest, tail = String "/" rest) ->
  Date m = GoStd.numeral wM M +:+ String "/" (GoStd.numeral wD D +:+ tail) ->
  readConfigurationfile_entry eL m =
  Ret (eL ++ [mk_gDate M D (conv (Text m)) "" (Image m)]).
Proof.
  intros Hconv HM HD Htail HDate. unfold readConfigurationfile_entry.
  assert (HnoM : GoStd.Index (GoStd.numeral wM M) "/" = -1).
  { apply Index_numeral. lia. }
  assert (HnoD : GoStd.Index (GoStd.numeral wD D) "/" = -1).
  { apply Index_numeral. lia. }
  rewrite HDate.
  destruct (GoStd.Index _ "/" =? -1) eqn:E.
  { apply Z.eqb_eq in E. by apply Index_app_sep in E. }
  cbn [negb]. rewrite (Split_app_sep _ _ _ HnoM).
  assert (Hsecond : exists rest,
            GoStd.Split (GoStd.numeral wD D +:+ tail) "/"
            = GoStd.numeral wD D :: rest).
  { destruct Htail as [-> | [rest ->]].
    - exists []. replace (GoStd.numeral wD D +:+ "") with (GoStd.numeral wD D).
      + by apply Split_absent.
      + generalize (GoStd.numeral wD D). intros s.
        induction s as [|c s IH]; [done |]. rewrite app_cons. by rewrite <- IH.
    - eexists. by apply Split_app_sep. }
  destruct Hsecond as (rest & ->).
  rewrite Hconv. cbn [mbind outcome_bind].
  rewrite index_0. cbn [mbind outcome_bind].
  rewrite decide_False by (apply numeral_not_star; lia).
  rewrite index_1. cbn [mbind outcome_bind].
  by rewrite !GoStd_ParseInt_numeral by lia.
Qed.

Lemma readConfigurationfile_entry_kinds (eL eL' : list gDate) (m : Gocaldate) :
  let kind g :=
    (weekday g = "" /\ int32 (month g) /\ int32 (day g)) \/
    (month g = 0 /\ day g = 0 /\ GoStd.Index (weekday g) "/" = -1) in
  Forall kind eL ->
  readConfigurationfile_entry eL m = Ret eL' -> Forall kind eL'.
Proof.
  intros kind HeL. unfold readConfigurationfile_entry, convertCP.
  destruct (charset_NewWriter "windows-1252") as [err | w].
  { destruct (negb _); by cbn. }
  destruct (GoStd.Index (Date m) "/" =? -1) eqn:E; cbn [negb].
  - cbn. intros [= <-]. apply Forall_app. split; [done |].
    constructor; [| done]. right. cbn. by apply Z.eqb_eq in E.
  - apply Z.eqb_neq in E.
    destruct (Split_two (Date m) "/" E) as (a & b & rest & ->).
    cbn [mbind outcome_bind]. rewrite index_0. cbn [mbind outcome_bind].
    destruct (decide (a = "*")); rewrite index_1; cbn [mbind outcome_bind].
    + rewrite foldl_snoc_map.
      assert (Hall : Forall kind
                ((fun j => mk_gDate j (GoStd.ParseInt b).1
                             (w (fmt_format (Text m))) "" (Image m))
                   <$> seqZ 1 12)).
      { apply Forall_fmap, Forall_forall. intros j Hj%elem_of_seqZ.
        left. cbn. split; [done |]. split; [unfold int32; lia |].
        apply ParseInt_int32. }
      intros [= <-]. apply Forall_app. split; [done | exact Hall].
    + intros [= <-]. apply Forall_app. split; [done |].
      constructor; [| done]. left. cbn.
      split; [done |]. split; apply ParseInt_int32.
Qed.

(** X4. Whatever the file holds, every record the expander returns either
    has an empty weekday and a month and a day of 32 bits (what
    [strconv.ParseInt] gave, 0 when it gave an error), or has month 0, day 0
    and for weekday a [Date] without a slash. *)
Theorem readConfigurationfile_kinds (filename : string) (l : list gDate) :
  readConfigurationfile filename = Ret l ->
  Forall (fun g =>
            (weekday g = "" /\ int32 (month g) /\ int32 (day g)) \/
            (month g = 0 /\ day g = 0 /\ GoStd.Index (weekday g) "/" = -1))
         l.
Proof.
  unfold readConfigurationfile.
  destruct (os_file filename) as [| | data]; [by intros [= <-].. |].
  destruct (xml_Unmarshal data) as [err | v]; [done |].
  intros Hret. eapply for_range_Forall; [| | exact Hret]; [| done].
  intros acc m acc' _ Hacc. by apply readConfigurationfile_entry_kinds.
Qed.

(** What the consumer makes of one event, the conversion being available:
    [strconv.ParseInt] with bitSize 32 brings the numbers to the nearest
    value of 32 bits. *)
Lemma readICSfile_event_adds (conv : string -> string) (targetyear : Z)
    (eL : list gDate) (e : Event) :
  converts conv ->
  readICSfile_event targetyear eL e =
  Ret (eL ++ if decide (clamp32 (Year (GetStart e)) = targetyear)
             then [mk_gDate (clamp32 (Month (GetStart e)))
                     (clamp32 (Day (GetStart e))) (conv (GetSummary e)) "" ""]
             else []).
Proof.
  intros Hconv. unfold readICSfile_event.
  rewrite Hconv. cbn [mbind outcome_bind Format].
  rewrite !ParseInt_appendInt_clamp.
  destruct (decide (targetyear = clamp32 (Year (GetStart e)))) as [-> | Hne].
  - by rewrite decide_True.
  - rewrite decide_False by done. by rewrite app_nil_r.
Qed.

Lemma readICSfile_drained (conv : string -> string) (filename : string)
    (targetyear : Z) (drained : nat) :
  converts conv ->
  readICSfile filename targetyear drained =
  Ret (take drained (ics_events filename) ≫= fun e =>
         if decide (clamp32 (Year (GetStart e)) = targetyear)
         then [mk_gDate (clamp32 (Month (GetStart e)))
                 (clamp32 (Day (GetStart e))) (conv (GetSummary e)) "" ""]
         else []).
Proof.
  intros Hconv. unfold readICSfile.
  rewrite (for_range_appends _
    (fun e => if decide (clamp32 (Year (GetStart e)) = targetyear)
              then [mk_gDate (clamp32 (Month (GetStart e)))
                      (clamp32 (Day (GetStart e)))
                      (conv (GetSummary e)) "" ""]
              else [])); [done |].
  intros acc e _. by apply readICSfile_event_adds.
Qed.

Lemma clamp32_int32 (z : Z) : int32 z -> clamp32 z = z.
Proof. unfold int32, clamp32. lia. Qed.

Lemma for_range_fatal {A B : Type} (body : B -> A -> outcome B) (acc : B)
    (x : A) (l : list A) (err : string) :
  (forall acc x, body acc x = Fatal err) ->
  for_range body acc (x :: l) = Fatal err.
Proof. intros Hbody. cbn [for_range]. by rewrite Hbody. Qed.

(** X5. With the conversion available the importer returns for every list of
    events, whatever their start dates and however many of them the consumer
    has handled when the caller returns: it keeps, in order, those of the
    events handled whose year, brought to the nearest value of 32 bits, is
    the target year, and gives each the month and the day brought to 32 bits
    in the same way. *)
Theorem readICSfile_any_dates (conv : string -> string) (filename : string)
    (targetyear : Z) (drained : nat) :
  converts conv ->
  readICSfile filename targetyear drained =
  Ret ((fun e => mk_gDate (clamp32 (Month (GetStart e)))
                   (clamp32 (Day (GetStart e))) (conv (GetSummary e)) "" "")
         <$> filter (fun e => clamp32 (Year (GetStart e)) = targetyear)
                    (take drained (ics_events filename))).
Proof.
  intros Hconv. rewrite (readICSfile_drained conv) by done. f_equal.
  induction (take drained (ics_events filename)) as [|e l IH]; [done |].
  cbn [mbind list_bind]. rewrite filter_cons.
  destruct (decide (clamp32 (Year (GetStart e)) = targetyear)); cbn;
    by rewrite IH.
Qed.

(** C5, as amended. What the importer and the expander return is made entry
    by entry: there is one function of the event (and the target year) and
    one of the configured entry, giving the records the loop body appends
    for it, and the list returned is these records, in order, for the events
    handled or for the entries of the file. The records of an event with a
    valid start date are date-addressed. The records of an entry whose
    [Date] is [M/D] with [M] in 1 to 12 and [D] in 1 to 31, [*/D] with [D] in
    1 to 31, or a non-empty string without a slash, are date-addressed or
    weekday-addressed, whatever the other entries of the file are. *)
Theorem day_events_well_addressed :
  exists (of_event : Z -> Event -> list gDate)
         (of_entry : Gocaldate -> list gDate),
    (forall targetyear eL e eL',
        readICSfile_event targetyear eL e = Ret eL' ->
        eL' = eL ++ of_event targetyear e) /\
    (forall filename targetyear drained l,
        readICSfile filename targetyear drained = Ret l ->
        l = take drained (ics_events filename) ≫= of_event targetyear) /\
    (forall targetyear e,
        valid_date (GetStart e) ->
        Forall date_addressed (of_event targetyear e)) /\
    (forall eL m eL',
        readConfigurationfile_entry eL m = Ret eL' ->
        eL' = eL ++ of_entry m) /\
    (forall filename data v l,
        os_file filename = Contents data -> xml_Unmarshal data = inr v ->
        readConfigurationfile filename = Ret l ->
        l = store_Gocaldate v ≫= of_entry) /\
    (forall m, wf_Date (Date m) -> Forall well_addressed (of_entry m)).
Proof.
  destruct convertCP_cases as [[conv Hconv] | [err Herr]].
  - destruct (readConfigurationfile_entry_adds conv Hconv)
      as (of_entry & _ & Hadd).
    exists (fun targetyear e =>
              if decide (clamp32 (Year (GetStart e)) = targetyear)
              then [mk_gDate (clamp32 (Month (GetStart e)))
                      (clamp32 (Day (GetStart e)))
                      (conv (GetSummary e)) "" ""]
              else []), of_entry.
    repeat split.
    + intros targetyear eL e eL'.
      rewrite (readICSfile_event_adds conv) by done. by intros [= <-].
    + intros filename targetyear drained l.
      rewrite (readICSfile_drained conv) by done. by intros [= <-].
    + intros targetyear e (Hy & Hm & Hd).
      destruct (decide _); [| done].
      constructor; [| done].
      rewrite !clamp32_int32 by (unfold int32; lia).
      repeat split; cbn; first [lia | reflexivity].
    + intros eL m eL'. rewrite Hadd. by intros [= <-].
    + intros filename data v l Hfile Hxml. unfold readConfigurationfile.
      rewrite Hfile, Hxml.
      rewrite (for_range_appends _ of_entry); [by intros [= <-] |].
      intros acc m _. apply Hadd.
    + intros m Hwf.
      apply (readConfigurationfile_entry_wf [] ([] ++ of_entry m) m);
        [done | done | apply Hadd].
  - assert (Hevent : forall targetyear eL e,
              readICSfile_event targetyear eL e = Fatal err).
    { intros targetyear eL e. unfold readICSfile_event. by rewrite Herr. }
    assert (Hentry : forall eL m,
              readConfigurationfile_entry eL m = Fatal err).
    { intros eL m. unfold readConfigurationfile_entry.
      destruct (negb _); by rewrite Herr. }
    exists (fun _ _ => []), (fun _ => []).
    repeat split.
    + intros targetyear eL e eL'. by rewrite Hevent.
    + intros filename targetyear drained l. unfold readICSfile.
      destruct (take drained (ics_events filename)) as [|e es].
      * by intros [= <-].
      * by rewrite (for_range_fatal _ _ _ _ err).
    + done.
    + intros eL m eL'. by rewrite Hentry.
    + intros filename data v l Hfile Hxml. unfold readConfigurationfile.
      rewrite Hfile, Hxml.
      destruct (store_Gocaldate v) as [|m ms].
      * by intros [= <-].
      * by rewrite (for_range_fatal _ _ _ _ err).
    + done.
Qed.

(** C8. The importer is not deterministic. Two calls with the same file and
    the same target year, the parser delivering the same events and the
    conversion being the same, return different lists when the consumer
    goroutine has handled different numbers of events by the time the
    caller returns: for a file that holds an event of the target year, the
    call returns the empty list when none has been handled and a list that
    holds the entry of that event when all have been. *)
Theorem readICSfile_depends_on_schedule (conv : string -> string)
    (filename : string) (targetyear : Z) (e : Event) :
  converts conv ->
  e ∈ ics_events filename ->
  valid_date (GetStart e) ->
  Year (GetStart e) = targetyear ->
  readICSfile filename targetyear 0 = Ret [] /\
  (exists l,
      readICSfile filename targetyear (length (ics_events filename)) = Ret l /\
      mk_gDate (Month (GetStart e)) (Day (GetStart e))
        (conv (GetSummary e)) "" "" ∈ l) /\
  readICSfile filename targetyear 0
  <> readICSfile filename targetyear (length (ics_events filename)).
Proof.
  intros Hconv He (Hy & Hm & Hd) Hyear.
  assert (Hnone : readICSfile filename targetyear 0 = Ret []) by done.
  assert (Hall : exists l,
            readICSfile filename targetyear (length (ics_events filename))
            = Ret l /\
            mk_gDate (Month (GetStart e)) (Day (GetStart e))
              (conv (GetSummary e)) "" "" ∈ l).
  { eexists. split; [by apply (readICSfile_drained conv) |].
    rewrite firstn_all. apply list_elem_of_bind. exists e. split; [| done].
    rewrite decide_True by (rewrite clamp32_int32; [done | unfold int32; lia]).
    rewrite !clamp32_int32 by (unfold int32; lia). by left. }
  split; [exact Hnone |]. split; [exact Hall |].
  destruct Hall as (l & Hl & Hin). rewrite Hnone, Hl. intros [= <-].
  by apply elem_of_nil in Hin.
Qed.

Lemma getLocalizedMonthNames_loop (conv : string -> string)
    (locale : string) (l : list Z) (monthnames : list string) :
  converts conv ->
  for_range (getLocalizedMonthNames_page locale) monthnames l =
  Ret (foldl (fun mn page => <[Z.to_nat page := month_name locale conv page]> mn)
             monthnames l).
Proof.
  intros Hconv. revert monthnames.
  induction l as [|page l IH]; intros monthnames; [done |].
  cbn [for_range foldl].
  assert (Hpage : getLocalizedMonthNames_page locale monthnames page
                  = Ret (<[Z.to_nat page := month_name locale conv page]>
                           monthnames)).
  { unfold getLocalizedMonthNames_page. by rewrite Hconv. }
  rewrite Hpage. cbn [mbind outcome_bind]. apply IH.
Qed.

(** X6. With the conversion available, the month names are an array of 13
    strings: index 0 is empty and the indices 1 to 12 hold the converted
    names of the months 1 to 12 of 2013; no name is cut, so the call does
    not panic. *)
Theorem getLocalizedMonthNames_layout (conv : string -> string)
    (locale : string) :
  converts conv ->
  getLocalizedMonthNames locale =
  Ret ("" :: (month_name locale conv <$> [1; 2; 3; 4; 5; 6; 7; 8; 9; 10; 11; 12])).
Proof.
  intros Hconv. unfold getLocalizedMonthNames.
  by rewrite (getLocalizedMonthNames_loop conv).
Qed.

Lemma take_bytes_prefix (k : nat) (s : string) :
  (k <= String.length s)%nat ->
  String.length (GoStd.take_bytes k s) = k /\
  exists rest, s = GoStd.take_bytes k s +:+ rest.
Proof.
  revert s. induction k as [|k IH]; intros s Hk.
  - split; [by destruct s |]. exists s. by destruct s.
  - destruct s as [|c s]; cbn in Hk; [lia |].
    destruct (IH s ltac:(lia)) as (Hlen & rest & Hrest).
    cbn [GoStd.take_bytes String.length]. split; [by rewrite Hlen |].
    exists rest. rewrite app_cons. by rewrite <- Hrest.
Qed.

(** X7. When the names are cut, each of the seven names returned has exactly
    [cutoff] bytes and is the beginning of the name returned without
    cutoff. *)
Theorem getLocalizedWeekdayNames_cut_prefix (locale : string) (cutoff : Z)
    (names full : list string) (i : nat) :
  0 < cutoff ->
  getLocalizedWeekdayNames locale cutoff = Ret names ->
  getLocalizedWeekdayNames locale 0 = Ret full ->
  (i < 7)%nat ->
  exists n rest,
    names !! i = Some n /\ full !! i = Some (n +:+ rest) /\
    Z.of_nat (String.length n) = cutoff.
Proof.
  intros Hcut Hnames Hfull Hi.
  destruct convertCP_cases as [[conv Hconv] | [err Herr]].
  2: { exfalso. revert Hfull. unfold getLocalizedWeekdayNames.
       change (seqZ 0 7) with (0 :: seqZ 1 6). cbn [for_range].
       assert (Hday : forall wd, getLocalizedWeekdayNames_day locale 0 wd 0
                                 = Fatal err).
       { intros wd. unfold getLocalizedWeekdayNames_day. by rewrite Herr. }
       by rewrite Hday. }
  revert Hnames Hfull. unfold getLocalizedWeekdayNames.
  rewrite !(getLocalizedWeekdayNames_loop conv)
    by (done || apply seqZ_0_7_in_array).
  destruct (0 <? cutoff) eqn:Ecut; [| lia]. cbn [andb].
  destruct (existsb _ _) eqn:Eex; [done |].
  replace (0 <? 0) with false by done. cbn [andb].
  intros [= <-] [= <-].
  assert (Hlong : forall j, 0 <= j < 7 ->
            (Z.to_nat cutoff
             <= String.length (weekday_name locale conv j))%nat).
  { intros j Hj.
    destruct (Z.of_nat (String.length (weekday_name locale conv j)) <? cutoff)
      eqn:Eshort; [| lia].
    assert (Hex : existsb
              (fun i => Z.of_nat (String.length (weekday_name locale conv i))
                          <? cutoff) (seqZ 0 7) = true); [| congruence].
    apply existsb_exists. exists j. split; [| done].
    apply list_elem_of_In, elem_of_seqZ. lia. }
  unfold cut_name. rewrite Ecut. replace (0 <? 0) with false by done.
  destruct (take_bytes_prefix (Z.to_nat cutoff)
              (weekday_name locale conv (Z.of_nat i))
              (Hlong (Z.of_nat i) ltac:(lia))) as (Hlen & rest & Hrest).
  exists (GoStd.take_bytes (Z.to_nat cutoff)
            (weekday_name locale conv (Z.of_nat i))), rest.
  rewrite <- Hrest. clear Hrest.
  split; [| split; [| lia]];
    do 7 (destruct i as [|i]; [reflexivity |]); lia.
Qed.

End EventMore.

(** * Further properties of the moon-phase maps *)

Section KeyFacts.
Import GoStd.

Lemma decimal_value_go_app (s1 s2 : string) (n : Z) :
  decimal_value_go n (s1 +:+ s2) = decimal_value_go (decimal_value_go n s1) s2.
Proof.
  revert n. induction s1 as [|c s1 IH]; intros n; [done |].
  rewrite app_cons. cbn [decimal_value_go]. apply IH.
Qed.

Lemma decimal_value_digits_go (fuel : nat) (n : Z) :
  0 <= n < 10 ^ Z.of_nat fuel -> decimal_value_go 0 (digits_go fuel n) = n.
Proof.
  revert n. induction fuel as [|f IH]; intros n Hn.
  - cbn in *. lia.
  - cbn [digits_go]. rewrite decimal_value_go_app.
    assert (Hd : 0 <= n mod 10 < 10) by (apply Z.mod_pos_bound; lia).
    destruct (digit_char_spec _ Hd) as [_ Hval].
    pose proof (Z.div_mod n 10 ltac:(lia)) as Hdm.
    cbn [decimal_value_go]. rewrite Hval.
    destruct (n <? 10) eqn:E10.
    + cbn [decimal_value_go]. rewrite Z.mod_small; lia.
    + rewrite IH; [lia |].
      rewrite Nat2Z.inj_succ, Z.pow_succ_r in Hn by lia.
      split; [apply Z.div_pos; lia | apply Z.div_lt_upper_bound; lia].
Qed.

Lemma decimal_value_numeral (w : nat) (n : Z) :
  0 <= n -> decimal_value (numeral w n) = n.
Proof.
  intros Hn. unfold decimal_value, numeral, pad0.
  rewrite decimal_value_go_app.
  replace (decimal_value_go 0 (zeros (w - String.length (digits n)))) with 0.
  - apply decimal_value_digits_go. split; [lia | by apply digits_fuel_enough].
  - induction (w - String.length (digits n))%nat as [|k IH]; [done | exact IH].
Qed.

Lemma Index_all_digits_dash (s : string) :
  all_digits s = true -> Index s "-" = -1.
Proof.
  induction s as [|a s IH]; [done |].
  cbn [all_digits Index]. intros [Ha Hs]%andb_prop.
  destruct (digit_not_sign _ Ha) as (_ & -> & _).
  by rewrite (IH Hs).
Qed.

Lemma Sprintf_0d_numeral (w : nat) (x : Z) :
  0 <= x -> Sprintf_0d w x = numeral w x.
Proof. intros Hx. unfold Sprintf_0d. destruct (x <? 0) eqn:E; [lia | done]. Qed.

(** The numbers of a date are read back from its key. *)
Lemma read_key_date_key (y m d : Z) :
  0 <= y -> 0 <= m -> 0 <= d -> read_key (date_key y m d) = [y; m; d].
Proof.
  intros Hy Hm Hd. unfold read_key, date_key.
  rewrite !Sprintf_0d_numeral by done.
  assert (Hno : forall w n, 0 <= n -> Index (numeral w n) "-" = -1).
  { intros w n Hn. by apply Index_all_digits_dash, all_digits_numeral. }
  rewrite !app_cons, !app_nil.
  rewrite (Split_app_sep _ _ _ (Hno 4%nat y Hy)).
  rewrite (Split_app_sep _ _ _ (Hno 2%nat m Hm)).
  rewrite (Split_absent _ _ (Hno 2%nat d Hd)).
  cbn [fmap list_fmap]. by rewrite !decimal_value_numeral.
Qed.

End KeyFacts.

Section MoonMore.
Context {float64 : Type} `{!Float64 float64, !Meeus float64}.

Implicit Types (range_order : Z -> list (string * (float64 -> float64))).

Lemma moonString_date_key (jd : float64) :
  moonString jd =
  date_key (JDToCalendar jd).1.1 (JDToCalendar jd).1.2
    (int_of_float64 (JDToCalendar jd).2).
Proof. unfold moonString. by destruct (JDToCalendar jd) as [[y m] d]. Qed.

(** X8. The key of the year-wide map tells the date: two Julian days whose
    dates have no negative part get the same key only when year, month and
    day of the month are the same. *)
Theorem moonString_same_date (jd1 jd2 : float64) :
  let date jd :=
    ((JDToCalendar jd).1.1, (JDToCalendar jd).1.2,
     int_of_float64 (JDToCalendar jd).2) in
  0 <= (date jd1).1.1 -> 0 <= (date jd1).1.2 -> 0 <= (date jd1).2 ->
  0 <= (date jd2).1.1 -> 0 <= (date jd2).1.2 -> 0 <= (date jd2).2 ->
  moonString jd1 = moonString jd2 -> date jd1 = date jd2.
Proof.
  intros date Hy1 Hm1 Hd1 Hy2 Hm2 Hd2 Hkey.
  rewrite !moonString_date_key in Hkey.
  apply (f_equal read_key) in Hkey.
  unfold date in *. cbn [fst snd] in *.
  rewrite !read_key_date_key in Hkey by done.
  by injection Hkey as -> -> ->.
Qed.

Lemma apply_writes_untouched {K V : Type} `{Countable K}
    (l : list (K * V)) (m : gmap K V) (k : K) :
  k ∉ l.*1 -> apply_writes m l !! k = m !! k.
Proof.
  intros Hk. rewrite apply_writes_union. apply lookup_union_r.
  apply not_elem_of_list_to_map_1. by rewrite fmap_reverse, elem_of_reverse.
Qed.

Lemma apply_writes_stays {K V : Type} `{Countable K}
    (l : list (K * V)) (m : gmap K V) (k : K) :
  is_Some (m !! k) -> is_Some (apply_writes m l !! k).
Proof.
  intros Hk. rewrite apply_writes_union. apply lookup_union_is_Some. by right.
Qed.

(** X9. The year-wide computation adds and overwrites, it never removes: a
    key the map came with is still there, and a key that is the date of no
    phase found keeps the value it came with. *)
Theorem computeMoonphasesJ_keeps range_order (moonJ : gmap string string)
    (yr : Z) (key : string) :
  (forall i, range_order i ≡ₚ moon_funcs) ->
  (is_Some (moonJ !! key) ->
   is_Some (computeMoonphasesJ range_order moonJ yr !! key)) /\
  ((forall i, 0 <= i < daysInYear yr -> key ∉ phase_keys yr i) ->
   computeMoonphasesJ range_order moonJ yr !! key = moonJ !! key).
Proof.
  intros Hperm. rewrite computeMoonphasesJ_as_writes. split.
  - apply apply_writes_stays.
  - intros Hnot. apply apply_writes_untouched.
    intros ([k label] & Hk & Hin)%list_elem_of_fmap. cbn in Hk. subst k.
    apply computeMoonphasesJ_writes_elem in Hin as (i & e & Hi & He & -> & _);
      [| done].
    apply (Hnot i Hi). unfold phase_keys. apply list_elem_of_fmap. by exists e.
Qed.

Lemma phase_falls_on_date (phase : float64 -> float64) (da mo yr i : Z) :
  phase_falls_on phase da mo yr i = true ->
  exists d,
    JDToCalendar
      (phase (decimalYear yr (DayOfYearGregorian yr mo (da + i) - 1)))
    = (yr, mo, d) /\ int_of_float64 d = i.
Proof.
  unfold phase_falls_on. destruct (JDToCalendar _) as [[y m] d].
  intros [[Hy%Z.eqb_eq Hm%Z.eqb_eq]%andb_prop Hd%Z.eqb_eq]%andb_prop.
  subst. by exists d.
Qed.

(** X10. Every label the month-scoped computation records is true to its key:
    an entry at key [k] that the map did not come with bears the label of a
    phase function whose phase, computed for the day at offset [k], falls in
    the year and month asked for on day [k]. And no entry is removed. *)
Theorem computeMoonphases_sound (moon : gmap Z string) (da mo yr k : Z)
    (label : string) :
  ((computeMoonphases moon da mo yr).1 !! k = Some label ->
   moon !! k = Some label \/
   exists phase d,
     (label, phase) ∈ moon_funcs /\ 0 <= k < 32 /\
     JDToCalendar
       (phase (decimalYear yr (DayOfYearGregorian yr mo (da + k) - 1)))
     = (yr, mo, d) /\ int_of_float64 d = k) /\
  (is_Some (moon !! k) -> is_Some ((computeMoonphases moon da mo yr).1 !! k)).
Proof.
  rewrite computeMoonphases_lookup. unfold last_phase_on.
  case_bool_decide as Hk; [| by split; [left |]].
  assert (Hin : forall name phase,
            (name, phase) ∈ moon_funcs ->
            phase_falls_on phase da mo yr k = true ->
            Some name = Some label ->
            moon !! k = Some label \/
            exists phase d,
              (label, phase) ∈ moon_funcs /\ 0 <= k < 32 /\
              JDToCalendar
                (phase (decimalYear yr
                          (DayOfYearGregorian yr mo (da + k) - 1)))
              = (yr, mo, d) /\ int_of_float64 d = k).
  { intros name phase Hmem Hfalls [= <-]. right.
    destruct (phase_falls_on_date _ _ _ _ _ Hfalls) as (d & Hdate & Hd).
    by exists phase, d. }
  unfold moon_funcs in Hin.
  destruct (phase_falls_on moonphase_Last da mo yr k) eqn:E1.
  { split; [| by eauto]. apply (Hin "Last" moonphase_Last); [| done].
    rewrite !elem_of_cons. tauto. }
  destruct (phase_falls_on moonphase_First da mo yr k) eqn:E2.
  { split; [| by eauto]. apply (Hin "First" moonphase_First); [| done].
    rewrite !elem_of_cons. tauto. }
  destruct (phase_falls_on moonphase_Full da mo yr k) eqn:E3.
  { split; [| by eauto]. apply (Hin "Full" moonphase_Full); [| done].
    rewrite !elem_of_cons. tauto. }
  destruct (phase_falls_on moonphase_New da mo yr k) eqn:E4.
  { split; [| by eauto]. apply (Hin "New" moonphase_New); [| done].
    rewrite !elem_of_cons. tauto. }
  split; [by left | done].
Qed.

(** The lines one block adds. *)
Lemma computeMoonphases_phase_lines (phase : float64 -> float64)
    (label : string) (announce : option string) (da mo yr i : Z)
    (st : moon_state) :
  (computeMoonphases_phase phase label announce mo yr i
     (decimalYear yr (DayOfYearGregorian yr mo (da + i) - 1)) st).2 =
  st.2 ++ match announce with
          | Some a => if phase_falls_on phase da mo yr i
                      then [announcement a mo yr i] else []
          | None => []
          end.
Proof.
  unfold computeMoonphases_phase, phase_falls_on, announcement.
  destruct (JDToCalendar _) as [[y m] d].
  destruct ((y =? yr) && (m =? mo) && (int_of_float64 d =? i)) eqn:E.
  - apply andb_prop in E as [[Hy%Z.eqb_eq Hm%Z.eqb_eq]%andb_prop Hd%Z.eqb_eq].
    subst. cbn [snd]. destruct announce; [done | by rewrite app_nil_r].
  - destruct announce; by rewrite app_nil_r.
Qed.

(** X11. The month-scoped computation prints one line for each new moon and
    each full moon it records, in the order of the offsets and new before
    full, naming the day of the key and the month and year asked for; the
    quarters are recorded without a line, and the map it is given plays no
    part. *)
Theorem computeMoonphases_lines (moon : gmap Z string) (da mo yr : Z) :
  (computeMoonphases moon da mo yr).2 =
  i ← seqZ 0 32;
  (if phase_falls_on moonphase_New da mo yr i
   then [announcement "New" mo yr i] else [])
  ++ (if phase_falls_on moonphase_Full da mo yr i
      then [announcement "Full" mo yr i] else []).
Proof.
  unfold computeMoonphases.
  assert (Hgen : forall l st,
            (foldl (computeMoonphases_day da mo yr) st l).2 =
            st.2 ++ (i ← l;
                     (if phase_falls_on moonphase_New da mo yr i
                      then [announcement "New" mo yr i] else [])
                     ++ (if phase_falls_on moonphase_Full da mo yr i
                         then [announcement "Full" mo yr i] else []))).
  { induction l as [|i l IH]; intros st; cbn [foldl].
    - by rewrite app_nil_r.
    - rewrite IH, bind_cons. unfold computeMoonphases_day.
      rewrite !(computeMoonphases_phase_lines _ _ _ da).
      by rewrite !app_nil_r, <- !app_assoc. }
  by rewrite Hgen.
Qed.

End MoonMore.

(** * Paths, fonts and downloads *)

Section PathFacts.
Import GoStd GoPath.

Lemma app_empty_r (s : string) : s +:+ "" = s.
Proof. induction s as [|c s IH]; [done |]. rewrite app_cons. by rewrite IH. Qed.

Lemma app_assoc_string (s1 s2 s3 : string) :
  (s1 +:+ s2) +:+ s3 = s1 +:+ (s2 +:+ s3).
Proof. induction s1 as [|c s1 IH]; [done |]. by rewrite !app_cons, IH. Qed.

Lemma length_app_string (s1 s2 : string) :
  String.length (s1 +:+ s2) = (String.length s1 + String.length s2)%nat.
Proof. induction s1 as [|c s1 IH]; [done |]. rewrite app_cons. cbn. by rewrite IH. Qed.

Lemma Split_cons_shape (s : string) (c : ascii) : Split s c <> [].
Proof.
  destruct s as [|a s]; cbn [Split]; [done |].
  destruct (Ascii.eqb a c); [done |]. by destruct (Split s c).
Qed.

(** What precedes a slash plays no part in the last element. *)
Lemma last_element_app_sep (s1 s2 : string) :
  last_element (s1 +:+ String "/" s2) = last_element s2.
Proof.
  unfold last_element. f_equal.
  induction s1 as [|a s1 IH].
  - rewrite app_nil. cbn [Split].
    replace (Ascii.eqb "/" "/") with true by done.
    pose proof (Split_cons_shape s2 "/").
    by destruct (Split s2 "/").
  - rewrite app_cons. cbn [Split]. destruct (Ascii.eqb a "/").
    + rewrite <- IH. pose proof (Split_cons_shape (s1 +:+ String "/" s2) "/").
      by destruct (Split (s1 +:+ String "/" s2) "/").
    + rewrite <- IH.
      assert (Hidx : Index (s1 +:+ String "/" s2) "/" <> -1)
        by apply Index_app_sep.
      destruct (Split (s1 +:+ String "/" s2) "/") as [|h [|h2 t]] eqn:E.
      * by apply Split_cons_shape in E.
      * exfalso. clear IH.
        assert (Hone : forall s, Index s "/" <> -1 ->
                  forall h, Split s "/" <> [h]).
        { clear. intros s. induction s as [|b s IH]; cbn [Index Split]; [done |].
          destruct (Ascii.eqb b "/").
          - intros _ h. pose proof (Split_cons_shape s "/").
            destruct (Split s "/"); [done | discriminate].
          - destruct (Index s "/" =? -1) eqn:E; [done |]. intros _ h.
            destruct (Split s "/") as [|x [|y t]] eqn:Es;
              [by apply Split_cons_shape in Es | | discriminate].
            exfalso. apply (IH ltac:(lia) x). done. }
        by apply (Hone _ Hidx h).
      * done.
Qed.

Lemma last_element_no_sep (s : string) :
  Index s "/" = -1 -> last_element s = s.
Proof. intros Hs. unfold last_element. by rewrite Split_absent. Qed.

Lemma Ext_app_sep (s1 s2 : string) : Ext (s1 +:+ String "/" s2) = Ext s2.
Proof. unfold Ext. by rewrite last_element_app_sep. Qed.

(** A string ends with the part that begins at its final dot. *)
Lemma from_last_dot_suffix (s : string) :
  exists stem, s = stem +:+ from_last_dot s.
Proof.
  induction s as [|c s (stem & IH)]; [by exists "" |].
  cbn [from_last_dot]. destruct (from_last_dot s) as [|d e] eqn:E.
  - destruct (Ascii.eqb c "."); [by exists "" |].
    exists (String c s). by rewrite app_empty_r.
  - exists (String c stem). rewrite app_cons. by rewrite <- IH.
Qed.

Lemma last_element_suffix (s : string) :
  exists front, s = front +:+ last_element s.
Proof.
  unfold last_element.
  induction s as [|c s (front & IH)]; [by exists "" |].
  cbn [Split]. destruct (Ascii.eqb c "/") eqn:Ec.
  - apply Ascii.eqb_eq in Ec as ->.
    pose proof (Split_cons_shape s "/").
    destruct (Split s "/") as [|h t] eqn:E; [done |].
    exists (String "/" front). rewrite app_cons. f_equal. exact IH.
  - destruct (Split s "/") as [|h [|h2 t]] eqn:E.
    + by apply Split_cons_shape in E.
    + exists "". cbn in IH |- *. rewrite app_nil. f_equal.
      (* one element: the string has no slash and is that element *)
      assert (Hs : s = h).
      { clear IH. revert h E. induction s as [|b s IHs]; intros h E.
        - cbn in E. by injection E.
        - cbn [Split] in E. destruct (Ascii.eqb b "/").
          + pose proof (Split_cons_shape s "/").
            destruct (Split s "/"); [done | discriminate].
          + destruct (Split s "/") as [|x [|y t]] eqn:Es;
              [by apply Split_cons_shape in Es | | discriminate].
            injection E as <-. f_equal. by apply IHs. }
      by subst.
    + exists (String c front). rewrite app_cons. f_equal. exact IH.
Qed.

(** The extension is the end of the path, it holds no slash, and it is
    empty or begins with a dot. *)
Lemma Ext_suffix (path : string) : exists stem, path = stem +:+ Ext path.
Proof.
  unfold Ext. destruct (last_element_suffix path) as (front & Hfront).
  destruct (from_last_dot_suffix (last_element path)) as (stem & Hstem).
  exists (front +:+ stem). rewrite app_assoc_string. by rewrite <- Hstem.
Qed.

Lemma Split_parts_no_sep (s : string) (c : ascii) :
  Forall (fun x => Index x c = -1) (Split s c).
Proof.
  induction s as [|a s IH]; cbn [Split]; [by repeat constructor |].
  destruct (Ascii.eqb a c) eqn:Ea; [by constructor |].
  destruct (Split s c) as [|h t]; [repeat constructor; cbn; by rewrite Ea |].
  apply Forall_cons in IH as [Hh Ht]. constructor; [| done].
  cbn [Index]. by rewrite Ea, Hh.
Qed.

Lemma last_element_no_sep_inside (s : string) :
  Index (last_element s) "/" = -1.
Proof.
  unfold last_element.
  pose proof (Split_parts_no_sep s "/") as Hall.
  destruct (last (Split s "/")) as [x |] eqn:E; [| done].
  apply last_Some_elem_of in E.
  by apply (proj1 (Forall_forall _ _) Hall).
Qed.

Lemma Index_suffix_absent (s1 s2 : string) (c : ascii) :
  Index (s1 +:+ s2) c = -1 -> Index s2 c = -1.
Proof.
  induction s1 as [|a s1 IH]; [done |]. rewrite app_cons. cbn [Index].
  destruct (Ascii.eqb a c); [done |].
  destruct (Index (s1 +:+ s2) c =? -1) eqn:E.
  - intros _. apply IH. lia.
  - pose proof (Index_ge (s1 +:+ s2) c). lia.
Qed.

Lemma Ext_no_sep (path : string) : Index (Ext path) "/" = -1.
Proof.
  unfold Ext. destruct (from_last_dot_suffix (last_element path)) as (stem & Hs).
  apply (Index_suffix_absent stem). rewrite <- Hs.
  apply last_element_no_sep_inside.
Qed.

Lemma Index_app_absent (s1 s2 : string) (c : ascii) :
  Index s1 c = -1 -> Index s2 c = -1 -> Index (s1 +:+ s2) c = -1.
Proof.
  induction s1 as [|a s1 IH]; [done |]. rewrite app_cons. cbn [Index].
  destruct (Ascii.eqb a c); [done |].
  destruct (Index s1 c =? -1) eqn:E.
  - intros _ H2. by rewrite IH by (done || lia).
  - pose proof (Index_ge s1 c). lia.
Qed.

Lemma strip_trailing_no_sep (s : string) :
  Index s "/" = -1 -> strip_trailing s = s.
Proof.
  induction s as [|a s IH]; [done |]. cbn [Index strip_trailing].
  destruct (Ascii.eqb a "/") eqn:Ea; [done |].
  destruct (Index s "/" =? -1) eqn:E.
  - intros _. rewrite IH by lia. by destruct s.
  - pose proof (Index_ge s "/"). lia.
Qed.

Lemma strip_trailing_app (s1 s2 : string) :
  strip_trailing s2 <> "" ->
  strip_trailing (s1 +:+ s2) = s1 +:+ strip_trailing s2.
Proof.
  intros Hs2. induction s1 as [|a s1 IH]; [done |].
  rewrite !app_cons. cbn [strip_trailing]. rewrite IH.
  destruct (s1 +:+ strip_trailing s2) eqn:E; [| done].
  destruct s1; [| done]. by rewrite app_nil in E.
Qed.

(** The base name of a file in a directory is the name of the file. *)
Lemma Base_in_dir (dir name : string) :
  name <> "" -> Index name "/" = -1 ->
  Base (dir +:+ "/" +:+ name) = name.
Proof.
  intros Hne Hno. unfold Base.
  destruct (dir +:+ "/" +:+ name) eqn:E.
  { destruct dir; by rewrite ?app_cons, ?app_nil in E. }
  rewrite <- E. clear E.
  assert (Hstrip : strip_trailing name = name) by by apply strip_trailing_no_sep.
  replace (dir +:+ "/" +:+ name) with (dir +:+ String "/" name)
    by by rewrite app_cons, app_nil.
  rewrite (strip_trailing_app dir (String "/" name)).
  - cbn [strip_trailing]. rewrite Hstrip. destruct name as [|c name]; [done |].
    rewrite last_element_app_sep, (last_element_no_sep _ Hno). done.
  - cbn [strip_trailing]. rewrite Hstrip. by destruct name.
Qed.

Lemma strip_suffix_app (x suffix : string) :
  strip_suffix (x +:+ suffix) suffix = Some x.
Proof.
  induction x as [|c x IH].
  - rewrite app_nil. destruct suffix; cbn [strip_suffix]; by rewrite decide_True.
  - rewrite app_cons. cbn [strip_suffix].
    rewrite decide_False.
    + by rewrite IH.
    + intros Heq. apply (f_equal String.length) in Heq.
      cbn in Heq. rewrite length_app_string in Heq. lia.
Qed.

(** A string without the suffix it ends with, followed by the suffix, is
    the string. *)
Lemma TrimSuffix_app (x suffix : string) : TrimSuffix (x +:+ suffix) suffix = x.
Proof. unfold TrimSuffix. by rewrite strip_suffix_app. Qed.

End PathFacts.

Section SystemFacts.
Context `{Sys}.

(** X12. Whatever goes wrong, [downloadFile] returns a file name and no error:
    the name is [image] with the extension of the address, placed in the
    directory given; the base name of the result is [image] and the
    extension, so no address makes the file land elsewhere. *)
Theorem downloadFile_result (input tempDir : string) :
  let fileName := tempDir +:+ "/" +:+ "image" +:+ GoPath.Ext input in
  result (downloadFile input tempDir) = Ret fileName /\
  GoPath.Base fileName = "image" +:+ GoPath.Ext input.
Proof.
  intros fileName. split.
  - unfold downloadFile. fold fileName.
    destruct (Create_answer fileName); [done |].
    cbn. destruct (Get_answer input) as [err | body]; [done |].
    cbn. by destruct (Copy_answer fileName body).
  - unfold fileName. apply Base_in_dir; [done |].
    apply Index_app_absent; [done | apply Ext_no_sep].
Qed.

(** X13. [downloadFile] closes what it opened: when the file is created, the
    run ends by closing it, once; when the address answers, the body is
    closed once, before the file; when the file is not created, nothing is
    closed. No other file is created, written or closed. *)
Theorem downloadFile_closes (input tempDir : string) :
  let fileName := tempDir +:+ "/" +:+ "image" +:+ GoPath.Ext input in
  let run := calls (downloadFile input tempDir) in
  match Create_answer fileName with
  | Some _ =>
      run = [call_Create fileName; call_Printf "# Error creating <nil>"]
  | None =>
      match Get_answer input with
      | inl _ =>
          run = [call_Create fileName; call_Get input;
                 call_Printf ("# Error downloading " +:+ input);
                 call_Close fileName]
      | inr body =>
          exists report,
            run = [call_Create fileName; call_Get input;
                   call_Copy fileName body] ++ report
                  ++ [call_Close_body input; call_Close fileName] /\
            report = match Copy_answer fileName body with
                     | Some _ => [call_Printf ("# Error copying " +:+ input)]
                     | None => []
                     end
      end
  end.
Proof.
  intros fileName run. unfold run, downloadFile. fold fileName.
  destruct (Create_answer fileName); [done |].
  cbn. destruct (Get_answer input) as [err | body]; [done |].
  cbn. destruct (Copy_answer fileName body);
    (eexists; split; [| reflexivity]; reflexivity).
Qed.

(** X14. The font name [processFont] returns is the base name of the font
    file without its extension: [freemonobold], [freeserifbold] and
    [freesansbold] for the three fonts that come with the program, whatever
    the temporary directory is called; and the directory it returns is the
    one it created. *)
Theorem processFont_font_name (fontFile fontName tempDirname : string) :
  result (processFont fontFile) = Ret (fontName, tempDirname) ->
  TempDir_answer = inr tempDirname /\
  (fontFile = "mono" -> fontName = "freemonobold") /\
  (fontFile = "serif" -> fontName = "freeserifbold") /\
  (fontFile = "sans" -> fontName = "freesansbold") /\
  (fontFile <> "mono" -> fontFile <> "serif" -> fontFile <> "sans" ->
   fontName +:+ GoPath.Ext (GoPath.Base fontFile) = GoPath.Base fontFile).
Proof.
  unfold processFont. destruct TempDir_answer as [err | dir]; [done |].
  cbn [mbind io_bind io_call_with result calls].
  set (enc := dir +:+ "/" +:+ "cp1252.map").
  assert (Hname : forall file,
            GoPath.Base (dir +:+ "/" +:+ file) = file ->
            forall stem ext, file = stem +:+ ext -> GoPath.Ext file = ext ->
            GoPath.TrimSuffix (GoPath.Base (dir +:+ "/" +:+ file))
              (GoPath.Ext (GoPath.Base (dir +:+ "/" +:+ file))) = stem).
  { intros file -> stem ext -> ->. apply TrimSuffix_app. }
  destruct (decide (fontFile = "mono")) as [-> | Hmono].
  { cbn. destruct (WriteFile_answer enc codepageCP1252); [done |].
    cbn. destruct (MakeFont_answer _ enc dir); [done |].
    cbn. intros [= <- <-]. split; [done |].
    repeat split; try done. intros _.
    apply (Hname "freemonobold.ttf"
             (Base_in_dir dir "freemonobold.ttf" ltac:(discriminate) eq_refl)
             "freemonobold" ".ttf"); reflexivity. }
  destruct (decide (fontFile = "serif")) as [-> | Hserif].
  { cbn. destruct (WriteFile_answer enc codepageCP1252); [done |].
    cbn. destruct (MakeFont_answer _ enc dir); [done |].
    cbn. intros [= <- <-]. split; [done |].
    repeat split; try done. intros _.
    apply (Hname "freeserifbold.ttf"
             (Base_in_dir dir "freeserifbold.ttf" ltac:(discriminate) eq_refl)
             "freeserifbold" ".ttf"); reflexivity. }
  destruct (decide (fontFile = "sans")) as [-> | Hsans].
  { cbn. destruct (WriteFile_answer enc codepageCP1252); [done |].
    cbn. destruct (MakeFont_answer _ enc dir); [done |].
    cbn. intros [= <- <-]. split; [done |].
    repeat split; try done. intros _.
    apply (Hname "freesansbold.ttf"
             (Base_in_dir dir "freesansbold.ttf" ltac:(discriminate) eq_refl)
             "freesansbold" ".ttf"); reflexivity. }
  cbn. destruct (WriteFile_answer enc codepageCP1252); [done |].
  cbn. destruct (MakeFont_answer fontFile enc dir); [done |].
  cbn. intros [= <- <-]. split; [done |].
  repeat split; try done. intros _ _ _.
  destruct (Ext_suffix (GoPath.Base fontFile)) as (stem & Hstem).
  rewrite Hstem at 1. by rewrite TrimSuffix_app, <- Hstem.
Qed.

End SystemFacts.

(** ** The further properties at the samples *)

Lemma readConfigurationfile_in_file_order_witness :
  @converts Sample.env id /\
  exists out : Gocaldate -> list gDate,
    length (out {| Date := "*/15"; Text := "Rent"; Image := "" |}) = 12%nat /\
    @readConfigurationfile Sample.env "events.xml"
    = Ret (out {| Date := "*/15"; Text := "Rent"; Image := "" |} ++ []).
Proof.
  split; [exact sample_converts |].
  destruct (@readConfigurationfile_in_file_order Sample.env id sample_converts)
    as (out & Hlen & Hfile).
  exists out. split.
  - exact (Hlen {| Date := "*/15"; Text := "Rent"; Image := "" |}).
  - exact (Hfile "events.xml" Sample.events_xml _ eq_refl eq_refl).
Defined.

Lemma readConfigurationfile_entry_one_date_witness :
  let m := {| Date := "3/07/2024"; Text := "Anna"; Image := "anna.jpg" |} in
  @converts Sample.env id /\ 0 <= 3 <= 2 ^ 31 - 1 /\ 0 <= 7 <= 2 ^ 31 - 1 /\
  ("/2024" = "" \/ exists rest, "/2024" = String "/" rest) /\
  Date m = GoStd.numeral 0 3 +:+ String "/" (GoStd.numeral 2 7 +:+ "/2024") /\
  @readConfigurationfile_entry Sample.env [] m
  = Ret [mk_gDate 3 7 "Anna" "" "anna.jpg"].
Proof.
  intros m.
  assert (H3 : 0 <= 3 <= 2 ^ 31 - 1) by lia.
  assert (H7 : 0 <= 7 <= 2 ^ 31 - 1) by lia.
  assert (Htail : "/2024" = "" \/ exists rest, "/2024" = String "/" rest).
  { right. by exists "2024". }
  assert (HDate : Date m = GoStd.numeral 0 3
                           +:+ String "/" (GoStd.numeral 2 7 +:+ "/2024"))
    by reflexivity.
  split; [exact sample_converts |]. split; [exact H3 |]. split; [exact H7 |].
  split; [exact Htail |]. split; [exact HDate |].
  exact (@readConfigurationfile_entry_one_date Sample.env id [] m 3 7 0 2
           "/2024" sample_converts H3 H7 Htail HDate).
Defined.

Lemma readConfigurationfile_kinds_witness :
  @readConfigurationfile Sample.env "fair.xml"
  = Ret [mk_gDate 13 45 "Fair" "" ""] /\
  Forall (fun g =>
            (weekday g = "" /\ int32 (month g) /\ int32 (day g)) \/
            (month g = 0 /\ day g = 0 /\ GoStd.Index (weekday g) "/" = -1))
         [mk_gDate 13 45 "Fair" "" ""].
Proof.
  assert (Hret : @readConfigurationfile Sample.env "fair.xml"
                 = Ret [mk_gDate 13 45 "Fair" "" ""]) by reflexivity.
  split; [exact Hret |].
  exact (@readConfigurationfile_kinds Sample.env "fair.xml" _ Hret).
Defined.

Lemma readICSfile_any_dates_witness :
  @converts Sample.env id /\
  @readICSfile Sample.env "calendar.ics" 2024 3 =
  Ret [mk_gDate 1 1 "New Year" "" ""; mk_gDate 6 15 "Party" "" ""].
Proof.
  split; [exact sample_converts |].
  exact (@readICSfile_any_dates Sample.env id "calendar.ics" 2024 3
           sample_converts).
Defined.

(** C5 at a file that holds [13/45] and then [3/7]: the record of the
    second entry is date-addressed, that of the first is not. *)
Lemma day_events_well_addressed_witness :
  @readConfigurationfile SampleMixed.env "mixed.xml" =
  Ret [mk_gDate 13 45 "Fair" "" ""; mk_gDate 3 7 "Ann" "" ""] /\
  well_addressed (mk_gDate 3 7 "Ann" "" "") /\
  Forall date_addressed
    [mk_gDate 1 1 "New Year" "" ""; mk_gDate 6 15 "Party" "" ""].
Proof.
  destruct (@day_events_well_addressed SampleMixed.env)
    as (of_event & of_entry & _ & _ & _ & Hentry & _ & Hwf).
  destruct (@day_events_well_addressed Sample.env)
    as (of_event' & of_entry' & _ & Hfile & Hvalid & _).
  split; [reflexivity |]. split.
  - pose proof (Hentry [] {| Date := "3/7"; Text := "Ann"; Image := "" |}
                  [mk_gDate 3 7 "Ann" "" ""] eq_refl) as Hann.
    pose proof (Hwf {| Date := "3/7"; Text := "Ann"; Image := "" |}
                  (wf_month_day 3 7 0 0 ltac:(lia) ltac:(lia))) as Hok.
    cbn [app] in Hann. rewrite <- Hann in Hok.
    exact (proj1 (Forall_singleton _ _) Hok).
  - rewrite (Hfile "calendar.ics" 2024 3%nat
      [mk_gDate 1 1 "New Year" "" ""; mk_gDate 6 15 "Party" "" ""] eq_refl).
    apply Forall_forall. intros g Hg.
    apply list_elem_of_bind in Hg as (e & Hg & He).
    assert (Hdate : valid_date (GetStart e)).
    { revert He.
      change (take 3 (@ics_events Sample.env "calendar.ics"))
        with Sample.calendar_events.
      unfold Sample.calendar_events. rewrite !elem_of_cons.
      intros [-> | [-> | [-> | Hnil]]];
        [repeat split; cbn; lia.. | by apply elem_of_nil in Hnil]. }
    exact (proj1 (Forall_forall _ _) (Hvalid 2024 e Hdate) g Hg).
Defined.

Lemma readICSfile_depends_on_schedule_witness :
  let e := {| GetSummary := "Party"; GetStart := time_Date 2024 6 15 |} in
  @converts Sample.env id /\
  e ∈ @ics_events Sample.env "calendar.ics" /\
  valid_date (GetStart e) /\
  Year (GetStart e) = 2024 /\
  @readICSfile Sample.env "calendar.ics" 2024 0
  <> @readICSfile Sample.env "calendar.ics" 2024 3.
Proof.
  intros e.
  assert (He : e ∈ @ics_events Sample.env "calendar.ics").
  { change (@ics_events Sample.env "calendar.ics")
      with Sample.calendar_events.
    unfold Sample.calendar_events. rewrite !elem_of_cons.
    right. right. by left. }
  assert (Hdate : valid_date (GetStart e)) by (repeat split; cbn; lia).
  assert (Hyear : Year (GetStart e) = 2024) by reflexivity.
  split; [exact sample_converts |]. split; [exact He |].
  split; [exact Hdate |]. split; [exact Hyear |].
  exact (proj2 (proj2 (@readICSfile_depends_on_schedule Sample.env id
                         "calendar.ics" 2024 e sample_converts He Hdate
                         Hyear))).
Defined.

Lemma getLocalizedMonthNames_layout_witness :
  @converts Sample.env id /\
  @getLocalizedMonthNames Sample.env "en_US"
  = Ret [""; "January"; "January"; "January"; "January"; "January";
         "January"; "January"; "January"; "January"; "January"; "January";
         "January"].
Proof.
  split; [exact sample_converts |].
  exact (@getLocalizedMonthNames_layout Sample.env id "en_US" sample_converts).
Defined.

Lemma getLocalizedWeekdayNames_cut_prefix_witness :
  0 < 3 /\
  @getLocalizedWeekdayNames Sample.env "en_US" 3
  = Ret ["Sat"; "Sun"; "Mon"; "Tue"; "Wed"; "Thu"; "Fri"; ""] /\
  @getLocalizedWeekdayNames Sample.env "en_US" 0
  = Ret ["Saturday"; "Sunday"; "Monday"; "Tuesday"; "Wednesday"; "Thursday";
         "Friday"; ""] /\
  (1 < 7)%nat /\
  exists n rest,
    ["Sat"; "Sun"; "Mon"; "Tue"; "Wed"; "Thu"; "Fri"; ""] !! 1%nat = Some n /\
    ["Saturday"; "Sunday"; "Monday"; "Tuesday"; "Wednesday"; "Thursday";
     "Friday"; ""] !! 1%nat = Some (n +:+ rest) /\
    Z.of_nat (String.length n) = 3.
Proof.
  assert (H3 : 0 < 3) by lia.
  assert (H1 : (1 < 7)%nat) by lia.
  split; [exact H3 |]. split; [reflexivity |]. split; [reflexivity |].
  split; [exact H1 |].
  exact (@getLocalizedWeekdayNames_cut_prefix Sample.env "en_US" 3 _ _ 1
           H3 eq_refl eq_refl H1).
Defined.

Section AtAlmanacMore.
#[local] Existing Instances Almanac.float64_Q Almanac.meeus_Q.

Lemma moonString_same_date_witness :
  moonString (2460320 # 1)%Q = moonString (9841281 # 4)%Q /\
  (JDToCalendar (2460320 # 1)%Q).1 = (JDToCalendar (9841281 # 4)%Q).1.
Proof.
  assert (Hkey : moonString (2460320 # 1)%Q = moonString (9841281 # 4)%Q)
    by (by vm_compute).
  split; [exact Hkey |].
  pose proof (@moonString_same_date Q Almanac.float64_Q Almanac.meeus_Q
                (2460320 # 1)%Q (9841281 # 4)%Q) as Hsame.
  cbv zeta in Hsame.
  assert (Hdate := Hsame ltac:(by vm_compute) ltac:(by vm_compute)
                     ltac:(by vm_compute) ltac:(by vm_compute)
                     ltac:(by vm_compute) ltac:(by vm_compute) Hkey).
  exact (f_equal fst Hdate).
Defined.

Lemma computeMoonphasesJ_keeps_witness :
  (forall i : Z, (fun _ : Z => moon_funcs) i ≡ₚ moon_funcs) /\
  (is_Some (({["2024-12-24" := "Eve"]} : gmap string string) !! "2024-12-24") ->
   is_Some (computeMoonphasesJ (fun _ => moon_funcs)
              {["2024-12-24" := "Eve"]} 2024 !! "2024-12-24")).
Proof.
  split; [exact literal_order |].
  exact (proj1 (@computeMoonphasesJ_keeps Q Almanac.float64_Q Almanac.meeus_Q
                  (fun _ => moon_funcs) {["2024-12-24" := "Eve"]} 2024
                  "2024-12-24" literal_order)).
Defined.

End AtAlmanacMore.

Lemma processFont_font_name_witness :
  result (@processFont SampleSys.sys "mono")
  = Ret ("freemonobold", "/tmp/012345") /\
  @TempDir_answer SampleSys.sys = inr "/tmp/012345".
Proof.
  assert (Hret : result (@processFont SampleSys.sys "mono")
                 = Ret ("freemonobold", "/tmp/012345")) by reflexivity.
  split; [exact Hret |].
  exact (proj1 (@processFont_font_name SampleSys.sys "mono" _ _ Hret)).
Defined.

(** Some values of the path functions. *)

Example Ext_values :
  GoPath.Ext "http://a.org/pic.jpg" = ".jpg" /\
  GoPath.Ext "archive.tar.gz" = ".gz" /\
  GoPath.Ext "a.b/c" = "" /\
  GoPath.Ext "a.b/" = "" /\
  GoPath.Ext "" = "".
Proof. by vm_compute. Qed.

Example Base_values :
  GoPath.Base "/usr/share/My.Font.ttf" = "My.Font.ttf" /\
  GoPath.Base "fonts/" = "fonts" /\
  GoPath.Base "///" = "/" /\
  GoPath.Base "" = "." /\
  GoPath.Base "plain" = "plain".
Proof. by vm_compute. Qed.

Example TrimSuffix_values :
  GoPath.TrimSuffix "My.Font.ttf" ".ttf" = "My.Font" /\
  GoPath.TrimSuffix "name" "" = "name" /\
  GoPath.TrimSuffix "name" ".ttf" = "name".
Proof. by vm_compute. Qed.

Example downloadFile_unreachable :
  let sys := {| TempDir_answer := inr "/tmp/1";
                WriteFile_answer := fun _ _ => None;
                MakeFont_answer := fun _ _ _ => None;
                Create_answer := fun _ => None;
                Get_answer := fun _ => inl "no route to host";
                Copy_answer := fun _ _ => None;
                freesansbold := ""; freemonobold := ""; freeserifbold := "" |} in
  @downloadFile sys "http://a.org/pic.jpg" "/tmp/1"
  = Run [call_Create "/tmp/1/image.jpg"; call_Get "http://a.org/pic.jpg";
         call_Printf "# Error downloading http://a.org/pic.jpg";
         call_Close "/tmp/1/image.jpg"]
        (Ret "/tmp/1/image.jpg").
Proof. reflexivity. Qed.
